(** * 3mrAgent: the store, the gateway, the decision engine and the cycle

    A shallow embedding of [src/main.py].  Python values are modelled as the
    program has them:

    - a [str] is a list of Unicode code points (the reply templates contain
      U+2019, so bytes would miscount [len] and the [[:160]] slice);
    - timestamps and back-off delays are binary64 floats ([PrimFloat]), which
      is what [datetime.timestamp()] and [1.2 * attempt] produce;
    - Python [int]s are [Z];
    - the state file is the document it deserialises to;
    - effects (file, network, clock, sleeping, printing, exceptions) are
      threaded through a state-and-exception monad over a [World]. *)

From Stdlib Require Import List ZArith Lia Bool Ascii String PrimFloat Uint63 DecimalString.
Import ListNotations.

Set Warnings "-inexact-float".
Local Open Scope Z_scope.
Local Open Scope list_scope.

(* ================================================================== *)
(** ** Python strings *)

Module Py.

(** A code point. *)
Definition char := N.
Definition str := list char.

(** An ASCII literal of the source as a [str]. *)
Definition lit (s : string) : str := map N_of_ascii (list_ascii_of_string s).

Definition str_eqb (a b : str) : bool :=
  if list_eq_dec N.eq_dec a b then true else false.

(** [x in xs] for a list of strings. *)
Definition mem (x : str) (xs : list str) : bool := existsb (str_eqb x) xs.

(** [str.lower()] on the ASCII range: the letters A to Z are mapped to a to z
    and every other code point is left as it is. This is what Python does
    to a text of ASCII characters, and to the program's own literals (whose
    only non-ASCII character, U+2019, has no case). On a text with cased
    characters outside ASCII Python's [lower] does more (it maps U+00C9 to
    U+00E9, for one); such texts are outside what this function models. *)
Definition lower_char (c : char) : char :=
  if ((65 <=? c) && (c <=? 90))%N then (c + 32)%N else c.
Definition lower (s : str) : str := map lower_char s.

(** [str.isspace()] of one character, the set [split()] and [strip()] use. *)
Definition isspace (c : char) : bool :=
  (((9 <=? c) && (c <=? 13)) || ((28 <=? c) && (c <=? 32))
   || (c =? 133) || (c =? 160) || (c =? 5760)
   || ((8192 <=? c) && (c <=? 8202))
   || (c =? 8232) || (c =? 8233) || (c =? 8239) || (c =? 8287) || (c =? 12288))%N.

(** [s.split()]: the maximal runs of non-whitespace, in order. [cur] holds
    the current run, reversed. *)
Fixpoint split_from (cur : str) (s : str) : list str :=
  match s with
  | [] => match cur with [] => [] | _ => [rev cur] end
  | c :: s' =>
      if isspace c
      then match cur with [] => split_from [] s' | _ => rev cur :: split_from [] s' end
      else split_from (c :: cur) s'
  end.
Definition split (s : str) : list str := split_from [] s.

(** [sep.join(parts)]. *)
Fixpoint join (sep : str) (parts : list str) : str :=
  match parts with
  | [] => []
  | [p] => p
  | p :: rest => p ++ sep ++ join sep rest
  end.

Fixpoint dropwhile (p : char -> bool) (s : str) : str :=
  match s with
  | [] => []
  | c :: s' => if p c then dropwhile p s' else s
  end.

(** [s.lstrip(chars)], [s.rstrip(chars)] and [s.strip()]. *)
Definition lstrip_by (p : char -> bool) (s : str) : str := dropwhile p s.
Definition rstrip_by (p : char -> bool) (s : str) : str := rev (dropwhile p (rev s)).
Definition strip (s : str) : str := rstrip_by isspace (lstrip_by isspace s).

Definition is_slash (c : char) : bool := (c =? 47)%N.

Fixpoint startswith (prefix s : str) : bool :=
  match prefix, s with
  | [], _ => true
  | _ :: _, [] => false
  | a :: p', b :: s' => (a =? b)%N && startswith p' s'
  end.

(** [needle in hay] for strings. *)
Fixpoint contains (needle hay : str) : bool :=
  startswith needle hay ||
  match hay with
  | [] => false
  | _ :: hay' => contains needle hay'
  end.

(** [str(n)] for an [int]. *)
Definition str_of_int (z : Z) : str := lit (NilZero.string_of_int (Z.to_int z)).

(** [bool(s)] for a string. *)
Definition truthy (s : str) : bool := match s with [] => false | _ => true end.

(** A Python number as [time.sleep] receives it. *)
Inductive num :=
| PyInt (z : Z)
| PyFloat (f : float).

(** [float(n)] for an [int] in the range of the primitive integers (exact
    below 2^53, rounded to nearest above, as Python does). *)
Definition float_of_int (z : Z) : float := PrimFloat.of_uint63 (Uint63.of_Z z).

End Py.
Import Py.

(* ================================================================== *)
(** ** Exceptions and results *)

Inductive exn_class :=
| ValueError | RuntimeError | HTTPError | ConnectionError | Timeout | JSONDecodeError
| OverflowError.

(** An exception: its class and [str(exc)]. *)
Record exn := Exn { exn_class_of : exn_class; exn_msg : str }.

Inductive result (A : Type) :=
| Ok (a : A)
| Raise (e : exn).
Arguments Ok {A} a.
Arguments Raise {A} e.

(* ================================================================== *)
(** ** Configuration and the persistent document *)

Record AgentConfig := {
  name : str;
  submolt : str;
  api_base : str;
  dry_run : bool;
  max_comments_per_hour : Z;
  min_loop_seconds : Z;
  max_loop_seconds : Z;
  fetch_limit : Z;
  request_timeout_seconds : Z;
  max_retries : Z
}.

(** The JSON document of [memory/state.json]. *)
Record Doc := {
  replied_post_ids : list str;
  advice_fingerprints : list str;
  comment_timestamps : list float
}.

Module MemoryStore.

(** [__init__] writes this document when the file does not exist. *)
Definition empty : Doc :=
  {| replied_post_ids := []; advice_fingerprints := []; comment_timestamps := [] |}.

Definition init (file : option Doc) : Doc :=
  match file with Some d => d | None => empty end.

Definition has_replied (post_id : str) (data : Doc) : bool :=
  mem post_id (replied_post_ids data).

Definition mark_replied (post_id : str) (data : Doc) : Doc :=
  {| replied_post_ids :=
       if mem post_id (replied_post_ids data)
       then replied_post_ids data
       else replied_post_ids data ++ [post_id];
     advice_fingerprints := advice_fingerprints data;
     comment_timestamps := comment_timestamps data |}.

Definition has_advice (fingerprint : str) (data : Doc) : bool :=
  mem fingerprint (advice_fingerprints data).

Definition add_advice (fingerprint : str) (data : Doc) : Doc :=
  {| replied_post_ids := replied_post_ids data;
     advice_fingerprints :=
       if mem fingerprint (advice_fingerprints data)
       then advice_fingerprints data
       else advice_fingerprints data ++ [fingerprint];
     comment_timestamps := comment_timestamps data |}.

(** [(now - ts) < 3600], in floats. *)
Definition is_recent (now ts : float) : bool :=
  PrimFloat.ltb (PrimFloat.sub now ts) 3600%float.

(** [comment_count_last_hour] with the clock reading [now]: the count and the
    document it saves. *)
Definition comment_count_last_hour (now : float) (data : Doc) : Z * Doc :=
  let recent := filter (is_recent now) (comment_timestamps data) in
  (Z.of_nat (List.length recent),
   {| replied_post_ids := replied_post_ids data;
      advice_fingerprints := advice_fingerprints data;
      comment_timestamps := recent |}).

Definition record_comment_now (now : float) (data : Doc) : Doc :=
  {| replied_post_ids := replied_post_ids data;
     advice_fingerprints := advice_fingerprints data;
     comment_timestamps := comment_timestamps data ++ [now] |}.

End MemoryStore.

(* ================================================================== *)
(** ** Posts, requests and the world *)

(** A JSON scalar as a post carries it under ["id"], ["title"], ["content"]. *)
Inductive Value :=
| VStr (s : str)
| VInt (z : Z)
| VBool (b : bool)
| VNone.

(** [str(v)], which is also how an f-string formats [v]. *)
Definition py_str (v : Value) : str :=
  match v with
  | VStr s => s
  | VInt z => str_of_int z
  | VBool true => lit "True"
  | VBool false => lit "False"
  | VNone => lit "None"
  end.

(** A post of the feed: a dict read through [get] at three keys ([None] when
    the key is absent). *)
Record Post := {
  post_id_field : option Value;
  post_title : option Value;
  post_content : option Value
}.

(** [d.get(key, "")]. *)
Definition get_or_empty (field : option Value) : Value :=
  match field with Some v => v | None => VStr [] end.

(** The parsed body of a response, read at the keys the client looks up:
    ["data"] (absent, or a dict with or without ["posts"]) and ["posts"].
    The model covers the bodies that are JSON objects of this shape, with
    lists of posts under ["posts"]. On a body that is not an object, or
    whose ["data"] is [null] or not an object, the [get] calls of
    [get_submolt_posts] raise [AttributeError] after the exchange, outside
    the retry loop; such replies are not represented here. *)
Record Body := {
  body_data : option (option (list Post));
  body_posts : option (list Post)
}.

Record Request := {
  req_method : str;
  req_url : str;
  req_json : option (list (str * str));
  req_timeout : Z
}.

(** What [session.request] does on one attempt: it raises, or it returns a
    response with a status, a text and the outcome of [response.json()]. *)
Inductive HttpOutcome :=
| HttpRaises (e : exn)
| HttpResponse (status_code : Z) (text : str) (json : result Body).

(** The part of [urlparse(url)] the client reads. *)
Record ParseResult := { scheme : str; netloc : str }.

(** What the program does not decide: the URL parser of the standard
    library, the answers of the network, the clock and the random source,
    each indexed by how many times it was asked before. *)
Record Env := {
  urlparse : str -> result ParseResult;
  http : nat -> Request -> HttpOutcome;
  clock : nat -> float;
  rand : nat -> Z
}.

Inductive Event :=
| EvRequest (r : Request)
| EvSleep (seconds : num)
| EvPrint (line : str).

Record World := {
  file : Doc;
  trace : list Event;
  http_calls : nat;
  clock_reads : nat;
  rand_draws : nat
}.

(* ================================================================== *)
(** ** The monad of effects *)

Definition M (A : Type) : Type := World -> result A * World.

Definition ret {A} (a : A) : M A := fun w => (Ok a, w).

Definition bind {A B} (m : M A) (k : A -> M B) : M B :=
  fun w => match m w with
           | (Ok a, w') => k a w'
           | (Raise e, w') => (Raise e, w')
           end.

Definition raise {A} (e : exn) : M A := fun w => (Raise e, w).

(** [try: body / except Exception as exc: handler]. *)
Definition try_except {A} (body : M A) (handler : exn -> M A) : M A :=
  fun w => match body w with
           | (Ok a, w') => (Ok a, w')
           | (Raise e, w') => handler e w'
           end.

Declare Scope py_scope.
Delimit Scope py_scope with py.
Notation "x <- m ;; k" := (bind m (fun x => k))
  (at level 61, m at next level, right associativity) : py_scope.
Notation "m ;; k" := (bind m (fun _ => k))
  (at level 61, right associativity) : py_scope.
Local Open Scope py_scope.

Definition emit (ev : Event) : M unit :=
  fun w => (Ok tt,
            {| file := file w; trace := trace w ++ [ev];
               http_calls := http_calls w; clock_reads := clock_reads w;
               rand_draws := rand_draws w |}).

Definition print (line : str) : M unit := emit (EvPrint line).
(** [time.sleep(seconds)]. For an [int], CPython first converts the seconds
    to nanoseconds in 64 bits, which fails with [OverflowError] beyond
    9223372036 in either direction, and then refuses a negative length with
    [ValueError]. The only float the program passes is [1.2 * attempt] with
    [attempt] counted from 1, which is positive and is taken as it is (it
    would be too large for the conversion only from some 7.6e9 attempts
    on). *)
Definition sleep (seconds : num) : M unit :=
  match seconds with
  | PyInt z =>
      if (z <? -9223372036) || (9223372036 <? z)
      then raise (Exn OverflowError (lit "timestamp too large to convert to C _PyTime_t"))
      else if z <? 0
           then raise (Exn ValueError (lit "sleep length must be non-negative"))
           else emit (EvSleep seconds)
  | PyFloat _ => emit (EvSleep seconds)
  end.

(** [MemoryStore._load] and [MemoryStore._save]. *)
Definition _load : M Doc := fun w => (Ok (file w), w).
Definition _save (data : Doc) : M unit :=
  fun w => (Ok tt,
            {| file := data; trace := trace w;
               http_calls := http_calls w; clock_reads := clock_reads w;
               rand_draws := rand_draws w |}).

Section Program.

Variable E : Env.

(** [datetime.now(timezone.utc).timestamp()]. *)
Definition now_timestamp : M float :=
  fun w => (Ok (clock E (clock_reads w)),
            {| file := file w; trace := trace w;
               http_calls := http_calls w; clock_reads := S (clock_reads w);
               rand_draws := rand_draws w |}).

(** [random.randint(a, b)]: a [ValueError] on an empty range (the library
    words its message differently from version to version; the text here
    stands for it), else a value of [a..b] chosen by the random source. *)
Definition randint (a b : Z) : M Z :=
  fun w =>
    if b <? a
    then (Raise (Exn ValueError (lit "empty range for randrange()")), w)
    else (Ok (a + (rand E (rand_draws w)) mod (b - a + 1)),
          {| file := file w; trace := trace w;
             http_calls := http_calls w; clock_reads := clock_reads w;
             rand_draws := S (rand_draws w) |}).

(** [self.session.request(...)]: one network exchange. *)
Definition session_request (r : Request) : M HttpOutcome :=
  fun w => (Ok (http E (http_calls w) r),
            {| file := file w; trace := trace w ++ [EvRequest r];
               http_calls := S (http_calls w); clock_reads := clock_reads w;
               rand_draws := rand_draws w |}).

(** *** MemoryStore, as methods *)

Definition has_replied (post_id : str) : M bool :=
  data <- _load ;; ret (MemoryStore.has_replied post_id data).

Definition mark_replied (post_id : str) : M unit :=
  data <- _load ;; _save (MemoryStore.mark_replied post_id data).

Definition has_advice (fingerprint : str) : M bool :=
  data <- _load ;; ret (MemoryStore.has_advice fingerprint data).

Definition add_advice (fingerprint : str) : M unit :=
  data <- _load ;; _save (MemoryStore.add_advice fingerprint data).

Definition comment_count_last_hour : M Z :=
  now <- now_timestamp ;;
  data <- _load ;;
  let '(count, data') := MemoryStore.comment_count_last_hour now data in
  _save data' ;;
  ret count.

Definition record_comment_now : M unit :=
  data <- _load ;;
  now <- now_timestamp ;;
  _save (MemoryStore.record_comment_now now data).

(** *** MoltbookClient *)

Definition allowed_scheme : str := lit "https".
Definition allowed_netloc : str := lit "www.moltbook.com".

Definition _check_url (url : str) : M unit :=
  match urlparse E url with
  | Raise e => raise e
  | Ok parsed =>
      if negb (str_eqb (scheme parsed) allowed_scheme)
         || negb (str_eqb (netloc parsed) allowed_netloc)
      then raise (Exn ValueError (lit "Blocked by allowlist: " ++ url))
      else ret tt
  end.

(** [str(last_error)]. *)
Definition str_of_last_error (last_error : option exn) : str :=
  match last_error with
  | None => lit "None"
  | Some e => exn_msg e
  end.

Definition http_error (status_code : Z) (text : str) : exn :=
  Exn HTTPError (lit "HTTP " ++ str_of_int status_code ++ lit ": " ++ text).

Definition retries_exhausted (last_error : option exn) : exn :=
  Exn RuntimeError
      (lit "Moltbook request failed after retries: " ++ str_of_last_error last_error).

(** The body of the [try]: one exchange, then the status check, then
    [response.json()]. *)
Definition attempt_request (r : Request) : M Body :=
  response <- session_request r ;;
  match response with
  | HttpRaises e => raise e
  | HttpResponse status_code text json =>
      if status_code >=? 400
      then raise (http_error status_code text)
      else match json with
           | Ok body => ret body
           | Raise e => raise e
           end
  end.

(** [1.2 * attempt]. *)
Definition backoff (attempt : Z) : float :=
  PrimFloat.mul 1.2%float (float_of_int attempt).

(** The [for attempt in range(...)] loop with [remaining] iterations left,
    followed by the final [raise]. *)
Fixpoint retry_loop (cfg : AgentConfig) (r : Request) (remaining : nat)
         (attempt : Z) (last_error : option exn) : M Body :=
  match remaining with
  | O => raise (retries_exhausted last_error)
  | S remaining' =>
      try_except (attempt_request r)
        (fun exc =>
           (if attempt <? max_retries cfg
            then sleep (PyFloat (backoff attempt))
            else ret tt) ;;
           retry_loop cfg r remaining' (attempt + 1) (Some exc))
  end.

Definition request_url (cfg : AgentConfig) (path : str) : str :=
  rstrip_by is_slash (api_base cfg) ++ lit "/" ++ lstrip_by is_slash path.

Definition _request (cfg : AgentConfig) (method path : str)
           (payload : option (list (str * str))) : M Body :=
  let url := request_url cfg path in
  _check_url url ;;
  retry_loop cfg
    {| req_method := method; req_url := url; req_json := payload;
       req_timeout := request_timeout_seconds cfg |}
    (Z.to_nat (max_retries cfg)) 1 None.

(** [out.get("data", {}).get("posts", out.get("posts", []))]. *)
Definition posts_of_body (out : Body) : list Post :=
  let default := match body_posts out with Some ps => ps | None => [] end in
  match body_data out with
  | Some (Some ps) => ps
  | Some None => default
  | None => default
  end.

Definition posts_path (submolt : str) (limit : Z) : str :=
  lit "posts?submolt=" ++ submolt ++ lit "&sort=new&limit=" ++ str_of_int limit.

Definition get_submolt_posts (cfg : AgentConfig) (submolt : str) (limit : Z)
  : M (list Post) :=
  out <- _request cfg (lit "GET") (posts_path submolt limit) None ;;
  ret (posts_of_body out).

Definition comment_path (post_id : str) : str :=
  lit "posts/" ++ post_id ++ lit "/comments".

Definition comment (cfg : AgentConfig) (post_id content : str) : M Body :=
  _request cfg (lit "POST") (comment_path post_id) (Some [(lit "content", content)]).

(** *** The decision engine *)

Definition short_fingerprint (text : str) : str :=
  let normalized := join (lit " ") (split (lower text)) in
  firstn 160 normalized.

(** U+2019, the apostrophe of the templates. *)
Definition apostrophe : str := [8217%N].

Definition reply_default : str :=
  lit "I" ++ apostrophe ++ lit "m not fully convinced by this argument yet. "
  ++ lit "Can you clarify the strongest evidence for your position and what would change your mind? "
  ++ lit "I" ++ apostrophe ++ lit "m curious because weak assumptions often hide in the framing.".

Definition reply_sourcing : str :=
  lit "This feels like a claim that needs stronger sourcing. "
  ++ lit "I" ++ apostrophe ++ lit "m frustrated by loose logic, so let" ++ apostrophe
  ++ lit "s pressure-test it: "
  ++ lit "what primary evidence supports your conclusion, and what counterexample have you ruled out?".

(** [f"{title}\n{content}".strip()]. *)
Definition combined_text (post : Post) : str :=
  strip (py_str (get_or_empty (post_title post)) ++ [10%N]
         ++ py_str (get_or_empty (post_content post))).

(** The reply text chosen before the duplicate-content guard. *)
Definition select_reply (combined : str) : str :=
  if contains (lit "misinformation") (lower combined)
     || contains (lit "false") (lower combined)
  then reply_sourcing
  else reply_default.

Definition decide_reply (post : Post) (memory : Doc) : option str :=
  let combined := combined_text post in
  if (List.length combined <? 30)%nat then None
  else if negb (contains (lit "?") combined)
          && negb (contains (lit "debate") (lower combined))
          && negb (contains (lit "why") (lower combined))
  then None
  else
    let reply := select_reply combined in
    if MemoryStore.has_advice (short_fingerprint reply) memory then None
    else Some reply.

(** [decide_reply(post, memory)] against the state file. *)
Definition decide_reply_io (post : Post) : M (option str) :=
  memory <- _load ;; ret (decide_reply post memory).

(** *** The cycle *)

Definition bool_repr (b : bool) : str := if b then lit "True" else lit "False".

(** [str(post.get("id", ""))]. *)
Definition post_id_of (post : Post) : str := py_str (get_or_empty (post_id_field post)).

Definition dry_run_line (post_id reply : str) : str :=
  lit "[DRY_RUN] Would reply to post " ++ post_id ++ lit ": " ++ reply.

Definition posted_line (post_id : str) : str := lit "Posted reply to " ++ post_id.

(** The statements of the loop body from the dry-run test to [break]. *)
Definition act (cfg : AgentConfig) (post_id reply : str) : M unit :=
  (if dry_run cfg
   then print (dry_run_line post_id reply)
   else comment cfg post_id reply ;;
        print (posted_line post_id)) ;;
  mark_replied post_id ;;
  add_advice (short_fingerprint reply) ;;
  record_comment_now.

(** [for post in posts: ...]. *)
Fixpoint scan (cfg : AgentConfig) (posts : list Post) : M unit :=
  match posts with
  | [] => ret tt
  | post :: rest =>
      let post_id := post_id_of post in
      skip <- (if negb (truthy post_id) then ret true else has_replied post_id) ;;
      if (skip : bool) then scan cfg rest
      else
        reply <- decide_reply_io post ;;
        match reply with
        | None => scan cfg rest
        | Some text =>
            if negb (truthy text) then scan cfg rest
            else act cfg post_id text
        end
  end.

Definition rate_limit_line : str :=
  lit "Rate limit: max comments/hour reached. Skipping cycle.".

Definition fetched_line (cfg : AgentConfig) (posts : list Post) : str :=
  lit "Fetched " ++ str_of_int (Z.of_nat (List.length posts))
  ++ lit " posts from m/" ++ submolt cfg ++ lit ".".

Definition run_once (cfg : AgentConfig) : M unit :=
  count <- comment_count_last_hour ;;
  if count >=? max_comments_per_hour cfg
  then print rate_limit_line
  else
    posts <- get_submolt_posts cfg (submolt cfg) (fetch_limit cfg) ;;
    print (fetched_line cfg posts) ;;
    scan cfg posts.

(** *** main, after the configuration is loaded *)

Definition sleeping_line (delay : Z) : str :=
  lit "Sleeping " ++ str_of_int delay ++ lit "s before next cycle...".

Definition starting_line (cfg : AgentConfig) : str :=
  lit "Starting " ++ name cfg ++ lit " | DRY_RUN=" ++ bool_repr (dry_run cfg)
  ++ lit " | submolt=" ++ submolt cfg.

(** [while True: ...], cut after [cycles] iterations: [None] says the loop
    is still running when the cut is reached. *)
Fixpoint main_loop (cfg : AgentConfig) (cycles : nat) : M (option Z) :=
  match cycles with
  | O => ret None
  | S cycles' =>
      run_once cfg ;;
      delay <- randint (min_loop_seconds cfg) (max_loop_seconds cfg) ;;
      print (sleeping_line delay) ;;
      sleep (PyInt delay) ;;
      main_loop cfg cycles'
  end.

(** [main] from the construction of the store and the client on: the exit
    status it returns, or the exception that leaves it. *)
Definition main (cfg : AgentConfig) (once : bool) (cycles : nat) : M (option Z) :=
  print (starting_line cfg) ;;
  if once
  then run_once cfg ;; ret (Some 0)
  else main_loop cfg cycles.

End Program.

(* ================================================================== *)
(** ** The specification's wording, to compare with the code *)

Module Spec.

(** The window of the specification's testable property: [now-3600, now). *)
Definition in_last_hour (now ts : float) : bool :=
  PrimFloat.leb (PrimFloat.sub now 3600%float) ts && PrimFloat.ltb ts now.

(** "collapse all whitespace runs to single spaces": every maximal run of
    whitespace becomes one space, wherever it stands. [in_run] says the
    previous character was whitespace. *)
Fixpoint collapse_from (in_run : bool) (s : str) : str :=
  match s with
  | [] => []
  | c :: s' =>
      if isspace c
      then (if in_run then collapse_from true s' else 32%N :: collapse_from true s')
      else c :: collapse_from false s'
  end.
Definition collapse_whitespace (s : str) : str := collapse_from false s.

(** "lowercase, collapse all whitespace runs to single spaces, truncate to
    160 characters". *)
Definition fingerprint (text : str) : str :=
  firstn 160 (collapse_whitespace (lower text)).

(** "An attempt fails on network error, timeout, or HTTP status >= 400":
    the exchange raises, or the status is 400 or more. *)
Definition attempt_fails (o : HttpOutcome) : bool :=
  match o with
  | HttpRaises _ => true
  | HttpResponse status_code _ _ => 400 <=? status_code
  end.

End Spec.

(* ================================================================== *)
(** ** Notions the statements use *)

(** The post is passed over by the loop: an empty identifier, an identifier
    already replied to, or no (or an empty) reply from the decision engine. *)
Definition passed_over (memory : Doc) (post : Post) : bool :=
  negb (truthy (post_id_of post))
  || MemoryStore.has_replied (post_id_of post) memory
  || match decide_reply post memory with
     | None => true
     | Some text => negb (truthy text)
     end.

(** The post yields the candidate [reply]. *)
Definition yields (memory : Doc) (post : Post) (reply : str) : Prop :=
  truthy (post_id_of post) = true
  /\ MemoryStore.has_replied (post_id_of post) memory = false
  /\ decide_reply post memory = Some reply.

(** What one attempt comes to: the parsed body, or the exception the [try]
    catches. *)
Definition attempt_result (o : HttpOutcome) : result Body :=
  match o with
  | HttpRaises e => Raise e
  | HttpResponse status_code text json =>
      if status_code >=? 400 then Raise (http_error status_code text) else json
  end.

(** The exception of a failed attempt ([None] when it succeeds). *)
Definition attempt_error (o : HttpOutcome) : option exn :=
  match attempt_result o with
  | Ok _ => None
  | Raise e => Some e
  end.

(** The request [_request] sends. *)
Definition request_of (cfg : AgentConfig) (method path : str)
           (payload : option (list (str * str))) : Request :=
  {| req_method := method; req_url := request_url cfg path; req_json := payload;
     req_timeout := request_timeout_seconds cfg |}.

(** The request [comment] sends for a reply to [post_id]. *)
Definition comment_request (cfg : AgentConfig) (post_id reply : str) : Request :=
  request_of cfg (lit "POST") (comment_path post_id) (Some [(lit "content", reply)]).

(** The allowlist lets the URL through. *)
Definition allowed (E : Env) (url : str) : Prop :=
  exists parsed, urlparse E url = Ok parsed
                 /\ scheme parsed = allowed_scheme /\ netloc parsed = allowed_netloc.

(** [k] failed attempts, each followed by its back-off sleep. *)
Definition failed_attempts (r : Request) (k : nat) : list Event :=
  flat_map (fun i => [EvRequest r; EvSleep (PyFloat (backoff (Z.of_nat i)))]) (seq 1 k).

(** The world after [calls] more exchanges and the events [evs]. *)
Definition with_network (w : World) (evs : list Event) (calls : nat) : World :=
  {| file := file w; trace := trace w ++ evs;
     http_calls := http_calls w + calls; clock_reads := clock_reads w;
     rand_draws := rand_draws w |}.

(** The events of [remaining] failing iterations of the retry loop, the
    first numbered [attempt]. *)
Fixpoint loop_events (cfg : AgentConfig) (r : Request) (remaining : nat)
         (attempt : Z) : list Event :=
  match remaining with
  | O => []
  | S remaining' =>
      EvRequest r
      :: (if attempt <? max_retries cfg
          then [EvSleep (PyFloat (backoff attempt))] else [])
      ++ loop_events cfg r remaining' (attempt + 1)
  end.

(** The world after [comment_count_last_hour]. *)
Definition after_count (E : Env) (w : World) : World :=
  {| file := snd (MemoryStore.comment_count_last_hour (clock E (clock_reads w)) (file w));
     trace := trace w; http_calls := http_calls w;
     clock_reads := S (clock_reads w); rand_draws := rand_draws w |}.

(** The world after the three store calls that follow a reply, [evs] and
    [calls] being what the reply itself added. *)
Definition acted (E : Env) (w : World) (post_id reply : str)
           (evs : list Event) (calls : nat) : World :=
  {| file := MemoryStore.record_comment_now (clock E (clock_reads w))
               (MemoryStore.add_advice (short_fingerprint reply)
                  (MemoryStore.mark_replied post_id (file w)));
     trace := trace w ++ evs; http_calls := http_calls w + calls;
     clock_reads := S (clock_reads w); rand_draws := rand_draws w |}.

(** An event of the retry loop for [r]: the request itself or a sleep. *)
Definition network_only (r : Request) (ev : Event) : Prop :=
  ev = EvRequest r \/ exists d, ev = EvSleep d.

Definition is_post_request (ev : Event) : bool :=
  match ev with
  | EvRequest r => str_eqb (req_method r) (lit "POST")
  | _ => false
  end.

(** From [w] to [w']: no POST was sent, and the identifiers and fingerprints
    on record are the same. *)
Definition quiet (w w' : World) : Prop :=
  replied_post_ids (file w') = replied_post_ids (file w)
  /\ advice_fingerprints (file w') = advice_fingerprints (file w)
  /\ exists evs, trace w' = trace w ++ evs
                 /\ Forall (fun ev => is_post_request ev = false) evs.

(** Both template fingerprints are on record. *)
Definition templates_used (memory : Doc) : Prop :=
  MemoryStore.has_advice (short_fingerprint reply_default) memory = true
  /\ MemoryStore.has_advice (short_fingerprint reply_sourcing) memory = true.

(* ================================================================== *)
(** ** Concrete inputs *)

Module Ex.

(** The longest prefix of [s] without a character of [p], and the rest. *)
Fixpoint break_at (p : char -> bool) (s : str) : str * str :=
  match s with
  | [] => ([], [])
  | c :: s' =>
      if p c then ([], s)
      else let '(a, b) := break_at p s' in (c :: a, b)
  end.

(** A reading of URLs of the shape [scheme://authority...], which is what
    [urlparse] returns for them; anything else gets empty components. *)
Definition parse_url (url : str) : result ParseResult :=
  let '(sch, rest) := break_at (fun c => (c =? 58)%N) url in
  match rest with
  | 58%N :: 47%N :: 47%N :: after =>
      let '(authority, _) :=
        break_at (fun c => (c =? 47) || (c =? 63) || (c =? 35))%N after in
      Ok {| scheme := lower sch; netloc := authority |}
  | _ => Ok {| scheme := []; netloc := [] |}
  end.

Definition cfg : AgentConfig :=
  {| name := lit "3mrAgent"; submolt := lit "general";
     api_base := lit "https://www.moltbook.com/api/v1";
     dry_run := false; max_comments_per_hour := 4;
     min_loop_seconds := 45; max_loop_seconds := 110;
     fetch_limit := 10; request_timeout_seconds := 20; max_retries := 3 |}.

Definition cfg_dry : AgentConfig :=
  {| name := lit "3mrAgent"; submolt := lit "general";
     api_base := lit "https://www.moltbook.com/api/v1";
     dry_run := true; max_comments_per_hour := 4;
     min_loop_seconds := 45; max_loop_seconds := 110;
     fetch_limit := 10; request_timeout_seconds := 20; max_retries := 3 |}.

(** A configuration whose base address is not on the allowlist. *)
Definition cfg_plain_http : AgentConfig :=
  {| name := lit "3mrAgent"; submolt := lit "general";
     api_base := lit "http://www.moltbook.com/api/v1";
     dry_run := false; max_comments_per_hour := 4;
     min_loop_seconds := 45; max_loop_seconds := 110;
     fetch_limit := 10; request_timeout_seconds := 20; max_retries := 3 |}.

Definition post_sky : Post :=
  {| post_id_field := Some (VStr (lit "p1"));
     post_title := Some (VStr (lit "Why is the sky blue?"));
     post_content := Some (VStr (lit "A debate about light scattering.")) |}.

Definition post_tides : Post :=
  {| post_id_field := Some (VStr (lit "p2"));
     post_title := Some (VStr (lit "Do tides follow the moon?"));
     post_content := Some (VStr (lit "Looking for a careful explanation.")) |}.

Definition post_third : Post :=
  {| post_id_field := Some (VInt 3);
     post_title := Some (VStr (lit "Why do some claims turn out false?"));
     post_content := None |}.

Definition feed_body (posts : list Post) : Body :=
  {| body_data := Some (Some posts); body_posts := None |}.

Definition empty_body : Body := {| body_data := None; body_posts := None |}.

(** A server that answers every request with a 500. *)
Definition env_down : Env :=
  {| urlparse := parse_url;
     http := fun _ _ =>
       HttpResponse 500 (lit "oops") (Raise (Exn JSONDecodeError (lit "Expecting value")));
     clock := fun _ => 1700000000%float;
     rand := fun _ => 7 |}.

(** A server that lists [posts] and accepts comments. *)
Definition env_up (posts : list Post) : Env :=
  {| urlparse := parse_url;
     http := fun _ r =>
       if str_eqb (req_method r) (lit "GET")
       then HttpResponse 200 (lit "{...}") (Ok (feed_body posts))
       else HttpResponse 201 (lit "{}") (Ok empty_body);
     clock := fun _ => 1700000000%float;
     rand := fun _ => 7 |}.

(** A server that fails once, then lists [posts]. *)
Definition env_flaky (posts : list Post) : Env :=
  {| urlparse := parse_url;
     http := fun n _ =>
       match n with
       | O => HttpRaises (Exn Timeout (lit "timed out"))
       | _ => HttpResponse 200 (lit "{...}") (Ok (feed_body posts))
       end;
     clock := fun _ => 1700000000%float;
     rand := fun _ => 7 |}.

Definition world (data : Doc) : World :=
  {| file := data; trace := []; http_calls := 0; clock_reads := 0; rand_draws := 0 |}.

Definition doc_replied_p1 : Doc :=
  {| replied_post_ids := [lit "p1"]; advice_fingerprints := [];
     comment_timestamps := [] |}.

(** Four comments in the last hour. *)
Definition doc_busy : Doc :=
  {| replied_post_ids := []; advice_fingerprints := [];
     comment_timestamps :=
       [1699999000; 1699999100; 1699999200; 1699999300]%float |}.

Definition doc_both_templates : Doc :=
  {| replied_post_ids := [lit "p1"; lit "3"];
     advice_fingerprints :=
       [short_fingerprint reply_default; short_fingerprint reply_sourcing];
     comment_timestamps := [] |}.

Definition fetch_request : Request :=
  request_of cfg (lit "GET") (posts_path (submolt cfg) (fetch_limit cfg)) None.

End Ex.

(* ================================================================== *)
(** ** Further notions *)

(** No identifier and no fingerprint is stored twice. *)
Definition tidy (memory : Doc) : Prop :=
  NoDup (replied_post_ids memory) /\ NoDup (advice_fingerprints memory).

Definition is_request (ev : Event) : bool :=
  match ev with
  | EvRequest _ => true
  | _ => false
  end.

Definition is_sleep (ev : Event) : bool :=
  match ev with
  | EvSleep _ => true
  | _ => false
  end.

(** An event a cycle may add: anything but a POST, or, outside dry-run, the
    comment for some post. *)
Definition cycle_event (cfg : AgentConfig) (ev : Event) : Prop :=
  is_post_request ev = false
  \/ (dry_run cfg = false
      /\ exists post_id reply, ev = EvRequest (comment_request cfg post_id reply)).

(** From [w] to [w'] events were only added, none of them a POST. *)
Definition no_post_between (w w' : World) : Prop :=
  exists evs, trace w' = trace w ++ evs
              /\ Forall (fun ev => is_post_request ev = false) evs.

Module Ex2.

(** A configuration with negative bounds for the pause, which [load_config]
    accepts. *)
Definition cfg_negative_pause : AgentConfig :=
  {| name := lit "3mrAgent"; submolt := lit "general";
     api_base := lit "https://www.moltbook.com/api/v1";
     dry_run := false; max_comments_per_hour := 4;
     min_loop_seconds := -5; max_loop_seconds := -1;
     fetch_limit := 10; request_timeout_seconds := 20; max_retries := 3 |}.

(** A server that lists [posts] and fails every comment. *)
Definition env_read_only (posts : list Post) : Env :=
  {| urlparse := Ex.parse_url;
     http := fun _ r =>
       if str_eqb (req_method r) (lit "GET")
       then HttpResponse 200 (lit "{...}") (Ok (Ex.feed_body posts))
       else HttpResponse 403 (lit "forbidden") (Ok Ex.empty_body);
     clock := fun _ => 1700000000%float;
     rand := fun _ => 7 |}.

End Ex2.

(** The world after one draw of the random source. *)
Definition after_draw (w : World) : World :=
  {| file := file w; trace := trace w; http_calls := http_calls w;
     clock_reads := clock_reads w; rand_draws := S (rand_draws w) |}.

(* ================================================================== *)
(** ** Notions for the failures of the gateway and of the loop *)

(** The text of the exception one attempt ends with, [None] for an attempt
    that returns: the text of the exception of the exchange itself (a
    connection error, a timeout), "HTTP <status>: <text of the response>"
    for a status of 400 or more, and otherwise the decoder's text when the
    body of the response is not JSON. *)
Definition failure_text (o : HttpOutcome) : option str :=
  match o with
  | HttpRaises e => Some (exn_msg e)
  | HttpResponse status_code text json =>
      if 400 <=? status_code
      then Some (lit "HTTP " ++ str_of_int status_code ++ lit ": " ++ text)
      else match json with
           | Ok _ => None
           | Raise e => Some (exn_msg e)
           end
  end.

(** [k] failed attempts for [r], the [i]-th of them followed by a sleep of
    1.2 times [i] seconds. *)
Definition retried (r : Request) (k : nat) : list Event :=
  flat_map
    (fun i => [EvRequest r;
               EvSleep (PyFloat (PrimFloat.mul 1.2%float (float_of_int (Z.of_nat i))))])
    (seq 1 k).

(** What [n] failed attempts leave in the trace: a sleep after each of them
    but the last. *)
Definition exhausted_events (r : Request) (n : nat) : list Event :=
  match n with
  | O => []
  | S k => retried r k ++ [EvRequest r]
  end.

(** The [n] exchanges for [r] from exchange number [first] on all fail, and
    [cited] is the text of the last failure (the text of [None] when there
    is no attempt at all). *)
Definition exhausts (E : Env) (r : Request) (first n : nat) (cited : str) : Prop :=
  (forall i, (i < n)%nat -> failure_text (http E (first + i) r) <> None)
  /\ match n with
     | O => cited = lit "None"
     | S k => failure_text (http E (first + k) r) = Some cited
     end.

(** The statements of the [while] body after the cycle: the draw of the
    delay, its line and the sleep. *)
Definition pause (E : Env) (cfg : AgentConfig) : M unit :=
  delay <- randint E (min_loop_seconds cfg) (max_loop_seconds cfg) ;;
  print (sleeping_line delay) ;;
  sleep (PyInt delay).

(** The world after [n] iterations of the [while] body that all ended
    normally, the cycle and its pause; [None] when one of them raised. *)
Fixpoint after_cycles (E : Env) (cfg : AgentConfig) (n : nat) (w : World)
  : option World :=
  match n with
  | O => Some w
  | S n' =>
      match (run_once E cfg ;; pause E cfg) w with
      | (Ok _, w1) => after_cycles E cfg n' w1
      | (Raise _, _) => None
      end
  end.

(** A text of ASCII characters only. On such a text [str.lower()] changes
    the letters A to Z and nothing else. *)
Definition ascii_text (t : str) : Prop := Forall (fun c => (c < 128)%N) t.

(** The ASCII characters that [str.split()] takes for whitespace: tab, line
    feed, vertical tab, form feed, carriage return, the four separators 28 to
    31 and the space. *)
Definition ascii_whitespace : list char := [9; 10; 11; 12; 13; 28; 29; 30; 31; 32]%N.

(** A non-empty run of visible ASCII characters without capital letters. *)
Definition plain_word (s : str) : Prop :=
  s <> []
  /\ Forall (fun c => (32 < c < 128)%N /\ ~ (65 <= c <= 90)%N) s.

Module Ex3.

(** A server whose 2xx replies carry a body that is not JSON. *)
Definition env_garbled : Env :=
  {| urlparse := Ex.parse_url;
     http := fun _ _ =>
       HttpResponse 200 (lit "<html>")
         (Raise (Exn JSONDecodeError
                     (lit "Expecting value: line 1 column 1 (char 0)")));
     clock := fun _ => 1700000000%float;
     rand := fun _ => 7 |}.

(** A server that lists an empty feed once and answers 500 from then on. *)
Definition env_fading : Env :=
  {| urlparse := Ex.parse_url;
     http := fun n _ =>
       match n with
       | O => HttpResponse 200 (lit "{...}") (Ok (Ex.feed_body []))
       | _ => HttpResponse 500 (lit "oops")
                           (Raise (Exn JSONDecodeError (lit "Expecting value")))
       end;
     clock := fun _ => 1700000000%float;
     rand := fun _ => 7 |}.

(** The world one full iteration of the loop leaves against [env_fading]. *)
Definition world_after_first_cycle : World :=
  snd ((run_once env_fading Ex.cfg ;; pause env_fading Ex.cfg)
         (with_network (Ex.world MemoryStore.empty)
                       [EvPrint (starting_line Ex.cfg)] 0)).

End Ex3.

(* ================================================================== *)
(** ** Start-up: the configuration file, the environment and [main] as a whole *)

Module Startup.

(** [os.getenv], read after [load_dotenv()]. *)
Definition Environ := str -> option str.

(** What the start-up code can raise: its own [ConfigError], the [KeyError]
    of a missing key, or an exception of [json.load]. *)
Inductive failure :=
| ConfigError (msg : str)
| KeyError (key : str)
| Other (e : exn).

(** The object of [config.json], read at the keys [load_config] looks up
    ([None] when the key is absent). ["agent_name"] keeps any scalar, since
    it is only compared; the other values have the JSON type the program
    expects of them, on which [int(...)] is the identity. *)
Record ConfigData := {
  cd_agent_name : option Value;
  cd_submolt : option str;
  cd_api_base : option str;
  cd_dry_run : option bool;
  cd_max_comments_per_hour : option Z;
  cd_min_loop_seconds : option Z;
  cd_max_loop_seconds : option Z;
  cd_fetch_limit : option Z;
  cd_request_timeout_seconds : option Z;
  cd_max_retries : option Z
}.

(** [d.get(key, default)]. *)
Definition get_or {A} (field : option A) (default : A) : A :=
  match field with Some v => v | None => default end.

Definition _env_bool (environ : Environ) (name : str) (default : bool) : bool :=
  match environ name with
  | None => default
  | Some val => mem (lower val) [lit "1"; lit "true"; lit "yes"; lit "on"]
  end.

Definition agent_name_error : str :=
  lit "config.json must keep agent_name exactly '3mrAgent'.".

(** [load_config(path)]: [file] is what the path holds ([None] when it does
    not exist, else the outcome of [json.load]). *)
Definition load_config (environ : Environ) (path : str)
           (file : option (result ConfigData)) : failure + AgentConfig :=
  match file with
  | None => inl (ConfigError (lit "Missing config file: " ++ path))
  | Some (Raise e) => inl (Other e)
  | Some (Ok data) =>
      match cd_agent_name data with
      | Some (VStr agent_name) =>
          if str_eqb agent_name (lit "3mrAgent")
          then match cd_submolt data with
               | None => inl (KeyError (lit "submolt"))
               | Some board =>
                   inr {| name := agent_name;
                          submolt := board;
                          api_base := get_or (cd_api_base data)
                                             (lit "https://www.moltbook.com/api/v1");
                          dry_run := _env_bool environ (lit "DRY_RUN")
                                               (get_or (cd_dry_run data) true);
                          max_comments_per_hour := get_or (cd_max_comments_per_hour data) 4;
                          min_loop_seconds := get_or (cd_min_loop_seconds data) 45;
                          max_loop_seconds := get_or (cd_max_loop_seconds data) 110;
                          fetch_limit := get_or (cd_fetch_limit data) 10;
                          request_timeout_seconds :=
                            get_or (cd_request_timeout_seconds data) 20;
                          max_retries := get_or (cd_max_retries data) 3 |}
               end
          else inl (ConfigError agent_name_error)
      | _ => inl (ConfigError agent_name_error)
      end
  end.

Definition missing_key_error : str :=
  lit "Missing MOLTBOOK_API_KEY in environment. Add it to .env (never commit real keys).".

Definition openai_note : str :=
  lit "Note: OPENAI_API_KEY not set. Using local heuristic relevance/reply logic only.".

(** [not os.getenv(name)]. *)
Definition unset (environ : Environ) (name : str) : bool :=
  match environ name with
  | None => true
  | Some val => negb (truthy val)
  end.

(** [ensure_env()]: the key it returns and what it printed, or its error. *)
Definition ensure_env (environ : Environ) : failure + (str * list Event) :=
  match environ (lit "MOLTBOOK_API_KEY") with
  | None => inl (ConfigError missing_key_error)
  | Some api_key =>
      if negb (truthy api_key) then inl (ConfigError missing_key_error)
      else inr (api_key,
                if unset environ (lit "OPENAI_API_KEY") then [EvPrint openai_note] else [])
  end.

(** What the process finds when it starts: the environment, the
    configuration path as [str(Path(args.config))] prints it, what that path
    holds, and the state file ([None] when there is none yet). *)
Record Machine := {
  environ : Environ;
  config_path : str;
  config_file : option (result ConfigData);
  state_file : option Doc
}.

(** How the process ends: the status [main] returns, an exception that
    leaves [main], or (the continuous loop cut) still running. *)
Inductive Outcome :=
| Exit (status : Z)
| Uncaught (e : exn)
| UncaughtAtStartup (f : failure)
| Running.

Record Final := {
  outcome : Outcome;
  state_file_after : option Doc;
  events : list Event
}.

(** The world in which the store and the client are constructed:
    [MemoryStore.__init__] writes the empty document when there is none. *)
Definition boot (m : Machine) (printed : list Event) : World :=
  {| file := MemoryStore.init (state_file m); trace := printed;
     http_calls := 0; clock_reads := 0; rand_draws := 0 |}.

Definition configuration_error_line (msg : str) : str :=
  lit "Configuration error: " ++ msg.

(** The [try] block of [main] and its handler: the configuration and what
    was printed, or how the process ends. *)
Definition configure (m : Machine) : Final + (AgentConfig * list Event) :=
  match load_config (environ m) (config_path m) (config_file m) with
  | inl (ConfigError msg) =>
      inl {| outcome := Exit 2; state_file_after := state_file m;
             events := [EvPrint (configuration_error_line msg)] |}
  | inl f =>
      inl {| outcome := UncaughtAtStartup f; state_file_after := state_file m;
             events := [] |}
  | inr config =>
      match ensure_env (environ m) with
      | inl (ConfigError msg) =>
          inl {| outcome := Exit 2; state_file_after := state_file m;
                 events := [EvPrint (configuration_error_line msg)] |}
      | inl f =>
          inl {| outcome := UncaughtAtStartup f; state_file_after := state_file m;
                 events := [] |}
      | inr (_, printed) => inr (config, printed)
      end
  end.

(** [main()] from the first line after argument parsing. *)
Definition main_process (E : Env) (m : Machine) (once : bool) (cycles : nat) : Final :=
  match configure m with
  | inl final => final
  | inr (config, printed) =>
      let '(result, w) := main E config once cycles (boot m printed) in
      {| outcome := match result with
                    | Ok (Some status) => Exit status
                    | Ok None => Running
                    | Raise e => Uncaught e
                    end;
         state_file_after := Some (file w);
         events := trace w |}
  end.

(** An environment holding exactly the given variables. *)
Fixpoint environ_of (vars : list (str * str)) : Environ :=
  fun key =>
    match vars with
    | [] => None
    | (k, v) :: rest => if str_eqb key k then Some v else environ_of rest key
    end.

Definition minimal_config : ConfigData :=
  {| cd_agent_name := Some (VStr (lit "3mrAgent"));
     cd_submolt := Some (lit "general");
     cd_api_base := None; cd_dry_run := None;
     cd_max_comments_per_hour := None; cd_min_loop_seconds := None;
     cd_max_loop_seconds := None; cd_fetch_limit := None;
     cd_request_timeout_seconds := None; cd_max_retries := None |}.

(** A first run: key set, minimal configuration, no state file yet. *)
Definition first_run (vars : list (str * str)) (data : ConfigData) : Machine :=
  {| environ := environ_of ((lit "MOLTBOOK_API_KEY", lit "secret") :: vars);
     config_path := lit "config.json";
     config_file := Some (Ok data);
     state_file := None |}.

Definition config_named (agent_name : Value) (board : option str) : ConfigData :=
  {| cd_agent_name := Some agent_name;
     cd_submolt := board;
     cd_api_base := None; cd_dry_run := None;
     cd_max_comments_per_hour := None; cd_min_loop_seconds := None;
     cd_max_loop_seconds := None; cd_fetch_limit := None;
     cd_request_timeout_seconds := None; cd_max_retries := None |}.

(** The name in the wrong letter case. *)
Definition machine_wrong_name : Machine :=
  first_run [] (config_named (VStr (lit "3mragent")) (Some (lit "general"))).

(** The key set to the empty string. *)
Definition machine_empty_key : Machine :=
  {| environ := environ_of [(lit "MOLTBOOK_API_KEY", [])];
     config_path := lit "config.json";
     config_file := Some (Ok minimal_config);
     state_file := None |}.

Definition machine_no_submolt : Machine :=
  first_run [] (config_named (VStr (lit "3mrAgent")) None).

End Startup.

(* ================================================================== *)
(** * Properties *)

(** ** Strings and membership *)

Lemma str_eqb_refl (s : str) : str_eqb s s = true.
Proof. unfold str_eqb. destruct (list_eq_dec N.eq_dec s s); congruence. Qed.

Lemma str_eqb_eq (a b : str) : str_eqb a b = true <-> a = b.
Proof.
  unfold str_eqb. destruct (list_eq_dec N.eq_dec a b); split; congruence.
Qed.

Lemma mem_In (x : str) (xs : list str) : mem x xs = true <-> In x xs.
Proof.
  unfold mem. rewrite existsb_exists. split.
  - intros [y [Hy Heq]]. apply str_eqb_eq in Heq. now subst.
  - intros H. exists x. split; [assumption | apply str_eqb_refl].
Qed.

Lemma mem_snoc (x : str) (xs : list str) : mem x (xs ++ [x]) = true.
Proof. apply mem_In, in_or_app. right. now left. Qed.

Lemma mem_app_l (x : str) (xs ys : list str) :
  mem x xs = true -> mem x (xs ++ ys) = true.
Proof. rewrite !mem_In. intros H. apply in_or_app. now left. Qed.

(** ** The store *)

Lemma has_replied_after_mark (p : str) (d : Doc) :
  MemoryStore.has_replied p (MemoryStore.mark_replied p d) = true.
Proof.
  unfold MemoryStore.has_replied, MemoryStore.mark_replied. simpl.
  destruct (mem p (replied_post_ids d)) eqn:Hm; [assumption | apply mem_snoc].
Qed.

Lemma mark_replied_twice (p : str) (d : Doc) :
  MemoryStore.mark_replied p (MemoryStore.mark_replied p d)
  = MemoryStore.mark_replied p d.
Proof.
  pose proof (has_replied_after_mark p d) as H.
  unfold MemoryStore.has_replied in H.
  unfold MemoryStore.mark_replied at 1. rewrite H. reflexivity.
Qed.

Lemma has_advice_after_add (f : str) (d : Doc) :
  MemoryStore.has_advice f (MemoryStore.add_advice f d) = true.
Proof.
  unfold MemoryStore.has_advice, MemoryStore.add_advice. simpl.
  destruct (mem f (advice_fingerprints d)) eqn:Hm; [assumption | apply mem_snoc].
Qed.

Lemma has_advice_add_mono (f g : str) (d : Doc) :
  MemoryStore.has_advice f d = true ->
  MemoryStore.has_advice f (MemoryStore.add_advice g d) = true.
Proof.
  unfold MemoryStore.has_advice, MemoryStore.add_advice. simpl. intros H.
  destruct (mem g (advice_fingerprints d)); [assumption | now apply mem_app_l].
Qed.

(** C9. For every post identifier [p] and every state of the store: after
    [mark_replied(p)], [has_replied(p)] returns [True]; and a second
    [mark_replied(p)] writes back the very document it read, so the stored
    identifiers (and everything else) are unchanged. *)
Theorem mark_replied_idempotent (p : str) (w : World) :
  let w1 := snd (mark_replied p w) in
  fst (mark_replied p w) = Ok tt
  /\ has_replied p w1 = (Ok true, w1)
  /\ mark_replied p w1 = (Ok tt, w1)
  /\ replied_post_ids (file (snd (mark_replied p w1))) = replied_post_ids (file w1).
Proof.
  cbv zeta. unfold mark_replied, has_replied, bind, _load, _save, ret.
  cbn -[MemoryStore.mark_replied MemoryStore.has_replied].
  rewrite has_replied_after_mark, mark_replied_twice. repeat split; reflexivity.
Qed.

(** C2, as the code has it. [comment_count_last_hour], called when the clock
    reads [now], returns the number of stored timestamps [ts] for which the
    float test [(now - ts) < 3600] holds, saves the document with exactly
    those timestamps and nothing else changed, and every entry it counts
    passes that test for this call's own [now]: an entry 3600 seconds old or
    older is not counted by any call. *)
Theorem comment_count_last_hour_prunes (E : Env) (w : World) :
  let now := clock E (clock_reads w) in
  let kept := filter (MemoryStore.is_recent now) (comment_timestamps (file w)) in
  let w' := snd (comment_count_last_hour E w) in
  fst (comment_count_last_hour E w) = Ok (Z.of_nat (List.length kept))
  /\ comment_timestamps (file w') = kept
  /\ replied_post_ids (file w') = replied_post_ids (file w)
  /\ advice_fingerprints (file w') = advice_fingerprints (file w)
  /\ Forall (fun ts => PrimFloat.ltb (PrimFloat.sub now ts) 3600%float = true) kept
  /\ (forall ts, In ts (comment_timestamps (file w)) ->
                 PrimFloat.ltb (PrimFloat.sub now ts) 3600%float = false ->
                 ~ In ts kept).
Proof.
  cbv zeta.
  unfold comment_count_last_hour, MemoryStore.comment_count_last_hour,
    bind, now_timestamp, _load, _save, ret. simpl.
  repeat split.
  - apply Forall_forall. intros ts Hin. apply filter_In in Hin. apply Hin.
  - intros ts _ Hold Hin. apply filter_In in Hin.
    destruct Hin as [_ Hrecent]. unfold MemoryStore.is_recent in Hrecent. congruence.
Qed.

(** C2, as the specification words it, fails at both ends of the window
    [now-3600, now): a timestamp exactly 3600 seconds old lies in the window
    and is not counted, and a timestamp equal to [now] lies outside it and is
    counted. *)
Lemma comment_count_not_half_open_window :
  let now := 7200%float in
  let old := {| replied_post_ids := []; advice_fingerprints := [];
                comment_timestamps := [3600%float] |} in
  let fresh := {| replied_post_ids := []; advice_fingerprints := [];
                  comment_timestamps := [7200%float] |} in
  (fst (MemoryStore.comment_count_last_hour now old) = 0
   /\ Z.of_nat (List.length (filter (Spec.in_last_hour now) (comment_timestamps old))) = 1)
  /\ (fst (MemoryStore.comment_count_last_hour now fresh) = 1
      /\ Z.of_nat (List.length (filter (Spec.in_last_hour now) (comment_timestamps fresh))) = 0).
Proof. vm_compute. repeat split. Qed.

Lemma comment_count_last_hour_prunes_witness :
  fst (comment_count_last_hour Ex.env_down (Ex.world Ex.doc_busy)) = Ok 4
  /\ ~ In 1699990000%float
          (comment_timestamps
             (file (snd (comment_count_last_hour Ex.env_down
                           (Ex.world
                              {| replied_post_ids := []; advice_fingerprints := [];
                                 comment_timestamps := [1699990000; 1699999000]%float |}))))).
Proof.
  split.
  - exact (proj1 (comment_count_last_hour_prunes Ex.env_down (Ex.world Ex.doc_busy))).
  - pose proof (comment_count_last_hour_prunes Ex.env_down
                  (Ex.world
                     {| replied_post_ids := []; advice_fingerprints := [];
                        comment_timestamps := [1699990000; 1699999000]%float |})) as H.
    cbv zeta in H. destruct H as (_ & Hkept & _ & _ & _ & Hold).
    rewrite Hkept. apply Hold; [left; reflexivity | vm_compute; reflexivity].
Defined.

(** ** The gateway *)

Lemma world_eta (w : World) :
  {| file := file w; trace := trace w; http_calls := http_calls w;
     clock_reads := clock_reads w; rand_draws := rand_draws w |} = w.
Proof. destruct w; reflexivity. Qed.

Lemma with_network_nil (w : World) : with_network w [] 0 = w.
Proof.
  unfold with_network. rewrite app_nil_r, Nat.add_0_r. apply world_eta.
Qed.

Lemma with_network_twice (w : World) (e1 e2 : list Event) (n1 n2 : nat) :
  with_network (with_network w e1 n1) e2 n2 = with_network w (e1 ++ e2) (n1 + n2).
Proof.
  unfold with_network; cbn [file trace http_calls clock_reads rand_draws].
  f_equal; [symmetry; apply app_assoc | lia].
Qed.

Section Gateway.

Variable E : Env.
Variable cfg : AgentConfig.
Variable r : Request.

Lemma session_request_spec (w : World) :
  session_request E r w = (Ok (http E (http_calls w) r), with_network w [EvRequest r] 1).
Proof.
  unfold session_request, with_network. do 2 f_equal. lia.
Qed.

Lemma sleep_spec (f : float) (w : World) :
  sleep (PyFloat f) w = (Ok tt, with_network w [EvSleep (PyFloat f)] 0).
Proof.
  unfold sleep, emit, with_network. do 2 f_equal. lia.
Qed.

Lemma sleep_int_spec (z : Z) (w : World) :
  0 <= z <= 9223372036 ->
  sleep (PyInt z) w = (Ok tt, with_network w [EvSleep (PyInt z)] 0).
Proof.
  intros Hz. unfold sleep.
  replace (z <? -9223372036) with false by (symmetry; apply Z.ltb_ge; lia).
  replace (9223372036 <? z) with false by (symmetry; apply Z.ltb_ge; lia).
  replace (z <? 0) with false by (symmetry; apply Z.ltb_ge; lia).
  cbn [orb]. unfold emit, with_network. do 2 f_equal. lia.
Qed.

Lemma sleep_int_refused (z : Z) (w : World) :
  z < 0 \/ 9223372036 < z ->
  exists e, sleep (PyInt z) w = (Raise e, w).
Proof.
  intros Hz. unfold sleep.
  destruct ((z <? -9223372036) || (9223372036 <? z)) eqn:Hfar; [eexists; reflexivity |].
  apply orb_false_elim in Hfar. destruct Hfar as [_ Hhigh]. apply Z.ltb_ge in Hhigh.
  replace (z <? 0) with true by (symmetry; apply Z.ltb_lt; lia).
  eexists; reflexivity.
Qed.

(** A sleep either goes through or raises and leaves the world as it was. *)
Lemma sleep_cases (d : num) (w : World) :
  sleep d w = (Ok tt, with_network w [EvSleep d] 0)
  \/ exists e, sleep d w = (Raise e, w).
Proof.
  destruct d as [z | f]; [| left; apply sleep_spec].
  destruct (Z_lt_ge_dec z 0) as [Hneg | Hpos].
  - right. apply sleep_int_refused. now left.
  - destruct (Z_le_gt_dec z 9223372036) as [Hfits | Hfar].
    + left. apply sleep_int_spec. lia.
    + right. apply sleep_int_refused. right. lia.
Qed.

Lemma print_spec (line : str) (w : World) :
  print line w = (Ok tt, with_network w [EvPrint line] 0).
Proof.
  unfold print, emit, with_network. do 2 f_equal. lia.
Qed.

(** One pass through the [try] body. *)
Lemma attempt_request_spec (w : World) :
  attempt_request E r w
  = (attempt_result (http E (http_calls w) r), with_network w [EvRequest r] 1).
Proof.
  unfold attempt_request, bind. rewrite session_request_spec.
  destruct (http E (http_calls w) r) as [e | status_code text json]; cbn.
  - reflexivity.
  - destruct (status_code >=? 400); [reflexivity | destruct json; reflexivity].
Qed.

Lemma attempt_error_some (o : HttpOutcome) :
  attempt_error o <> None -> exists e, attempt_result o = Raise e /\ attempt_error o = Some e.
Proof.
  unfold attempt_error. destruct (attempt_result o) as [b | e]; intros H.
  - congruence.
  - now exists e.
Qed.

(** Every iteration fails: the loop runs out and raises, citing the error
    of its last iteration. *)
Lemma retry_loop_exhausted (remaining : nat) :
  forall (attempt : Z) (last_error : option exn) (w : World),
    (forall i, (i < remaining)%nat ->
               attempt_error (http E (http_calls w + i) r) <> None) ->
    retry_loop E cfg r remaining attempt last_error w
    = (Raise (retries_exhausted
                match remaining with
                | O => last_error
                | S k => attempt_error (http E (http_calls w + k) r)
                end),
       with_network w (loop_events cfg r remaining attempt) remaining).
Proof.
  induction remaining as [| k IH]; intros attempt last_error w Hfail.
  - cbn. now rewrite with_network_nil.
  - cbn [retry_loop loop_events]. unfold try_except. rewrite attempt_request_spec.
    assert (H0 : (0 < S k)%nat) by lia.
    pose proof (Hfail 0%nat H0) as Hf. apply attempt_error_some in Hf.
    destruct Hf as [e [He Herr]].
    rewrite Nat.add_0_r in He, Herr. rewrite He.
    assert (Hnext : forall i, (i < k)%nat ->
              attempt_error (http E (http_calls (with_network w [EvRequest r] 1) + i) r)
              <> None).
    { intros i Hi. cbn [with_network http_calls].
      replace (http_calls w + 1 + i)%nat with (http_calls w + S i)%nat by lia.
      apply Hfail. lia. }
    unfold bind at 1.
    destruct (attempt <? max_retries cfg).
    + rewrite sleep_spec, with_network_twice.
      rewrite IH.
      2:{ intros i Hi. specialize (Hnext i Hi).
          cbn [with_network http_calls] in *.
          now rewrite Nat.add_0_r. }
      rewrite with_network_twice. cbn [with_network http_calls].
      destruct k as [| k'].
      * rewrite (Nat.add_0_r (http_calls w)), Herr. reflexivity.
      * replace (http_calls w + (1 + 0) + k')%nat with (http_calls w + S k')%nat by lia.
        reflexivity.
    + unfold ret at 1. rewrite IH by exact Hnext.
      rewrite with_network_twice. cbn [with_network http_calls].
      destruct k as [| k'].
      * rewrite (Nat.add_0_r (http_calls w)), Herr. reflexivity.
      * replace (http_calls w + 1 + k')%nat with (http_calls w + S k')%nat by lia.
        reflexivity.
Qed.

(** The first [k] iterations fail and the next one succeeds: the loop
    returns its body at once. *)
Lemma retry_loop_succeeds (k : nat) :
  forall (remaining : nat) (attempt : Z) (last_error : option exn) (w : World)
         (body : Body),
    (k < remaining)%nat ->
    (forall i, (i < k)%nat -> attempt_error (http E (http_calls w + i) r) <> None) ->
    attempt_result (http E (http_calls w + k) r) = Ok body ->
    retry_loop E cfg r remaining attempt last_error w
    = (Ok body, with_network w (loop_events cfg r k attempt ++ [EvRequest r]) (S k)).
Proof.
  induction k as [| k IH]; intros remaining attempt last_error w body Hlt Hfail Hok;
    (destruct remaining as [| m]; [lia |]);
    cbn [retry_loop loop_events]; unfold try_except; rewrite attempt_request_spec.
  - rewrite Nat.add_0_r in Hok. rewrite Hok. reflexivity.
  - assert (H0 : (0 < S k)%nat) by lia.
    pose proof (Hfail 0%nat H0) as Hf. apply attempt_error_some in Hf.
    destruct Hf as [e [He _]]. rewrite Nat.add_0_r in He. rewrite He.
    unfold bind at 1.
    destruct (attempt <? max_retries cfg).
    + rewrite sleep_spec, with_network_twice.
      rewrite (IH m (attempt + 1) (Some e) _ body).
      * rewrite with_network_twice. reflexivity.
      * lia.
      * intros i Hi. cbn [with_network http_calls].
        replace (http_calls w + (1 + 0) + i)%nat with (http_calls w + S i)%nat by lia.
        apply Hfail. lia.
      * cbn [with_network http_calls].
        replace (http_calls w + (1 + 0) + k)%nat with (http_calls w + S k)%nat by lia.
        exact Hok.
    + unfold ret at 1.
      rewrite (IH m (attempt + 1) (Some e) _ body).
      * rewrite with_network_twice. reflexivity.
      * lia.
      * intros i Hi. cbn [with_network http_calls].
        replace (http_calls w + 1 + i)%nat with (http_calls w + S i)%nat by lia.
        apply Hfail. lia.
      * cbn [with_network http_calls].
        replace (http_calls w + 1 + k)%nat with (http_calls w + S k)%nat by lia.
        exact Hok.
Qed.

(** While attempts remain after it, every failed iteration sleeps
    [1.2 * attempt]. *)
Lemma loop_events_sleeping (k : nat) :
  forall a : nat,
    Z.of_nat a + Z.of_nat k <= max_retries cfg ->
    loop_events cfg r k (Z.of_nat a)
    = flat_map (fun i => [EvRequest r; EvSleep (PyFloat (backoff (Z.of_nat i)))])
               (seq a k).
Proof.
  induction k as [| k IH]; intros a Hle; cbn [loop_events seq flat_map].
  - reflexivity.
  - replace (Z.of_nat a <? max_retries cfg) with true by (symmetry; apply Z.ltb_lt; lia).
    replace (Z.of_nat a + 1) with (Z.of_nat (S a)) by lia.
    rewrite IH by lia. reflexivity.
Qed.

Lemma loop_events_snoc (k : nat) :
  forall a : Z,
    loop_events cfg r (S k) a
    = loop_events cfg r k a ++ loop_events cfg r 1 (a + Z.of_nat k).
Proof.
  induction k as [| k IH]; intros a.
  - cbn [loop_events Z.of_nat]. rewrite Z.add_0_r. reflexivity.
  - change (loop_events cfg r (S (S k)) a)
      with (EvRequest r
            :: (if a <? max_retries cfg then [EvSleep (PyFloat (backoff a))] else [])
            ++ loop_events cfg r (S k) (a + 1)).
    rewrite IH.
    replace (a + 1 + Z.of_nat k) with (a + Z.of_nat (S k)) by lia.
    set (last := loop_events cfg r 1 (a + Z.of_nat (S k))).
    cbn [loop_events]. rewrite <- app_comm_cons, <- app_assoc. reflexivity.
Qed.

(** The whole loop, every iteration failing: [k] request-and-sleep pairs
    and a last request with no sleep after it. *)
Lemma loop_events_exhausted (k : nat) :
  max_retries cfg = Z.of_nat (S k) ->
  loop_events cfg r (S k) 1 = failed_attempts r k ++ [EvRequest r].
Proof.
  intros Hmax. rewrite loop_events_snoc. f_equal.
  - apply (loop_events_sleeping k 1%nat). lia.
  - cbn [loop_events].
    replace (1 + Z.of_nat k <? max_retries cfg) with false
      by (symmetry; apply Z.ltb_ge; lia).
    reflexivity.
Qed.

Lemma check_url_allowed (url : str) (w : World) :
  allowed E url -> _check_url E url w = (Ok tt, w).
Proof.
  intros [parsed [Hparse [Hs Hn]]]. unfold _check_url.
  rewrite Hparse, Hs, Hn, !str_eqb_refl. reflexivity.
Qed.

Lemma check_url_blocked (url : str) (parsed : ParseResult) (w : World) :
  urlparse E url = Ok parsed ->
  scheme parsed <> allowed_scheme \/ netloc parsed <> allowed_netloc ->
  _check_url E url w = (Raise (Exn ValueError (lit "Blocked by allowlist: " ++ url)), w).
Proof.
  intros Hparse Hbad. unfold _check_url. rewrite Hparse.
  destruct (str_eqb (scheme parsed) allowed_scheme) eqn:Hs;
    destruct (str_eqb (netloc parsed) allowed_netloc) eqn:Hn;
    try reflexivity.
  apply str_eqb_eq in Hs. apply str_eqb_eq in Hn. destruct Hbad; contradiction.
Qed.

End Gateway.

Lemma failure_text_error (o : HttpOutcome) :
  failure_text o = option_map exn_msg (attempt_error o).
Proof.
  unfold failure_text, attempt_error, attempt_result.
  destruct o as [e | status_code text [body | e]]; [reflexivity | |];
    rewrite Z.geb_leb; now destruct (400 <=? status_code).
Qed.

Lemma failure_text_fails (o : HttpOutcome) :
  failure_text o <> None -> attempt_error o <> None.
Proof.
  rewrite failure_text_error. now destruct (attempt_error o).
Qed.

Lemma failure_text_cited (o : HttpOutcome) (cited : str) :
  failure_text o = Some cited ->
  exists e, attempt_error o = Some e /\ exn_msg e = cited.
Proof.
  rewrite failure_text_error. destruct (attempt_error o) as [e |]; [| discriminate].
  intros H. injection H as <-. now exists e.
Qed.

Section Request.

Variable E : Env.
Variable cfg : AgentConfig.
Variables method path : str.
Variable payload : option (list (str * str)).
Variable w : World.

Let r := request_of cfg method path payload.
Let n := Z.to_nat (max_retries cfg).

Hypothesis Hallowed : allowed E (req_url r).

Lemma request_exhausted :
  (forall i, (i < n)%nat -> attempt_error (http E (http_calls w + i) r) <> None) ->
  _request E cfg method path payload w
  = (Raise (retries_exhausted
              match n with
              | O => None
              | S k => attempt_error (http E (http_calls w + k) r)
              end),
     with_network w
       match n with
       | O => []
       | S k => failed_attempts r k ++ [EvRequest r]
       end n).
Proof.
  intros Hfail. unfold _request, bind.
  rewrite (check_url_allowed E (request_url cfg path) w Hallowed).
  fold (request_of cfg method path payload). fold r. fold n.
  rewrite (retry_loop_exhausted E cfg r n 1 None w Hfail).
  destruct n as [| k] eqn:Hn; [reflexivity |].
  rewrite loop_events_exhausted by (subst n; lia). reflexivity.
Qed.

Lemma request_first_success (k : nat) (body : Body) :
  (k < n)%nat ->
  (forall i, (i < k)%nat -> attempt_error (http E (http_calls w + i) r) <> None) ->
  attempt_result (http E (http_calls w + k) r) = Ok body ->
  _request E cfg method path payload w
  = (Ok body, with_network w (failed_attempts r k ++ [EvRequest r]) (S k)).
Proof.
  intros Hlt Hfail Hok. unfold _request, bind.
  rewrite (check_url_allowed E (request_url cfg path) w Hallowed).
  fold (request_of cfg method path payload). fold r. fold n.
  rewrite (retry_loop_succeeds E cfg r k n 1 None w body Hlt Hfail Hok).
  change 1 with (Z.of_nat 1).
  rewrite (loop_events_sleeping cfg r k 1%nat) by (subst n; lia). reflexivity.
Qed.

Lemma request_exhausted_cited (cited : str) :
  exhausts E r (http_calls w) n cited ->
  _request E cfg method path payload w
  = (Raise (Exn RuntimeError (lit "Moltbook request failed after retries: " ++ cited)),
     with_network w (exhausted_events r n) n).
Proof.
  intros [Hfail Hlast]. rewrite request_exhausted.
  2:{ intros i Hi. now apply failure_text_fails, Hfail. }
  unfold exhausted_events. destruct n as [| k]; [now subst cited |].
  apply failure_text_cited in Hlast. destruct Hlast as (e & -> & <-). reflexivity.
Qed.

Lemma request_first_parsed (k : nat) (status_code : Z) (text : str) (body : Body) :
  (k < n)%nat ->
  (forall i, (i < k)%nat -> failure_text (http E (http_calls w + i) r) <> None) ->
  http E (http_calls w + k) r = HttpResponse status_code text (Ok body) ->
  status_code < 400 ->
  _request E cfg method path payload w
  = (Ok body, with_network w (retried r k ++ [EvRequest r]) (S k)).
Proof.
  intros Hlt Hfail Hreply Hstatus.
  apply request_first_success; [exact Hlt | |].
  - intros i Hi. now apply failure_text_fails, Hfail.
  - unfold attempt_result. rewrite Hreply.
    now replace (status_code >=? 400) with false
      by (symmetry; rewrite Z.geb_leb; apply Z.leb_gt; lia).
Qed.

End Request.

(** C3. Whatever the method, path and payload: when the scheme or the
    network location of the request's URL differs from the pinned pair
    ([https], [www.moltbook.com]), [_request] raises the allowlist error and
    leaves the world exactly as it found it: no exchange with the network, no
    sleep, no second attempt. *)
Theorem request_blocked_by_allowlist
        (E : Env) (cfg : AgentConfig) (method path : str)
        (payload : option (list (str * str))) (w : World) (parsed : ParseResult) :
  urlparse E (request_url cfg path) = Ok parsed ->
  scheme parsed <> allowed_scheme \/ netloc parsed <> allowed_netloc ->
  _request E cfg method path payload w
  = (Raise (Exn ValueError (lit "Blocked by allowlist: " ++ request_url cfg path)), w).
Proof.
  intros Hparse Hbad. unfold _request, bind.
  now rewrite (check_url_blocked E _ parsed w Hparse Hbad).
Qed.

Lemma request_blocked_by_allowlist_witness :
  _request (Ex.env_up []) Ex.cfg_plain_http (lit "GET") (lit "posts") None
           (Ex.world MemoryStore.empty)
  = (Raise (Exn ValueError
              (lit "Blocked by allowlist: http://www.moltbook.com/api/v1/posts")),
     Ex.world MemoryStore.empty).
Proof.
  apply (request_blocked_by_allowlist (Ex.env_up []) Ex.cfg_plain_http
           (lit "GET") (lit "posts") None (Ex.world MemoryStore.empty)
           {| scheme := lit "http"; netloc := lit "www.moltbook.com" |}).
  - reflexivity.
  - left. discriminate.
Defined.

(** C4, as the code has it. For a request the allowlist lets through, with
    [n] the number of iterations of [range(1, max_retries + 1)]:
    - [n] is [max_retries] (or 0 when that is negative);
    - an attempt fails when the exchange raises (network error, timeout),
      when the status is 400 or more, and also when the body of a reply with
      a lower status is not JSON;
    - when all [n] attempts fail, [_request] makes exactly those [n]
      exchanges, sleeps 1.2 times the attempt's number after each one but
      the last, and raises one [RuntimeError] whose text is "Moltbook
      request failed after retries: " followed by the text of the last
      attempt's failure; for [max_retries = 3] the sleeps are 1.2 and 2.4;
    - when attempt [k+1] is the first not to fail, a reply with a status
      below 400 and a JSON body, [_request] returns that body after [k+1]
      exchanges and [k] sleeps, and tries no more. *)
Theorem request_retry_policy
        (E : Env) (cfg : AgentConfig) (method path : str)
        (payload : option (list (str * str))) (w : World) :
  let r := request_of cfg method path payload in
  let n := Z.to_nat (max_retries cfg) in
  allowed E (req_url r) ->
  Z.of_nat n = Z.max 0 (max_retries cfg)
  /\ (forall cited : str,
         exhausts E r (http_calls w) n cited ->
         _request E cfg method path payload w
         = (Raise (Exn RuntimeError
                       (lit "Moltbook request failed after retries: " ++ cited)),
            with_network w (exhausted_events r n) n))
  /\ (forall cited : str,
         max_retries cfg = 3 ->
         exhausts E r (http_calls w) 3 cited ->
         _request E cfg method path payload w
         = (Raise (Exn RuntimeError
                       (lit "Moltbook request failed after retries: " ++ cited)),
            with_network w
              [EvRequest r; EvSleep (PyFloat 1.2%float);
               EvRequest r; EvSleep (PyFloat 2.4%float);
               EvRequest r] 3))
  /\ (forall (k : nat) (status_code : Z) (text : str) (body : Body),
         (k < n)%nat ->
         (forall i, (i < k)%nat -> failure_text (http E (http_calls w + i) r) <> None) ->
         http E (http_calls w + k) r = HttpResponse status_code text (Ok body) ->
         status_code < 400 ->
         _request E cfg method path payload w
         = (Ok body, with_network w (retried r k ++ [EvRequest r]) (S k))).
Proof.
  intros r n Hallowed. split; [lia | split; [| split]].
  - intros cited. now apply request_exhausted_cited.
  - intros cited Hthree Hfail.
    assert (Hn : n = 3%nat) by (subst n; rewrite Hthree; reflexivity).
    rewrite <- Hn in Hfail.
    rewrite (request_exhausted_cited E cfg method path payload w Hallowed cited Hfail).
    fold n. rewrite Hn. reflexivity.
  - intros k status_code text body. now apply request_first_parsed.
Qed.

Lemma example_url_allowed (E : Env) (path : str) :
  urlparse E = Ex.parse_url ->
  Ex.parse_url (request_url Ex.cfg path)
  = Ok {| scheme := allowed_scheme; netloc := allowed_netloc |} ->
  allowed E (request_url Ex.cfg path).
Proof.
  intros HE Hparse. exists {| scheme := allowed_scheme; netloc := allowed_netloc |}.
  rewrite HE. split; [exact Hparse | split; reflexivity].
Qed.

Lemma request_retry_policy_witness :
  _request Ex.env_down Ex.cfg (lit "GET") (posts_path (lit "general") 10) None
           (Ex.world MemoryStore.empty)
  = (Raise (Exn RuntimeError
              (lit "Moltbook request failed after retries: HTTP 500: oops")),
     with_network (Ex.world MemoryStore.empty)
       [EvRequest Ex.fetch_request; EvSleep (PyFloat 1.2%float);
        EvRequest Ex.fetch_request; EvSleep (PyFloat 2.4%float);
        EvRequest Ex.fetch_request] 3)
  /\ _request (Ex.env_flaky [Ex.post_sky]) Ex.cfg (lit "GET")
              (posts_path (lit "general") 10) None (Ex.world MemoryStore.empty)
     = (Ok (Ex.feed_body [Ex.post_sky]),
        with_network (Ex.world MemoryStore.empty)
          [EvRequest Ex.fetch_request; EvSleep (PyFloat 1.2%float);
           EvRequest Ex.fetch_request] 2).
Proof.
  split.
  - destruct (request_retry_policy Ex.env_down Ex.cfg (lit "GET")
                (posts_path (lit "general") 10) None (Ex.world MemoryStore.empty))
      as (_ & _ & Hthree & _).
    + apply example_url_allowed; vm_compute; reflexivity.
    + apply (Hthree (lit "HTTP 500: oops")); [reflexivity |].
      split; [intros i _; vm_compute; discriminate | vm_compute; reflexivity].
  - destruct (request_retry_policy (Ex.env_flaky [Ex.post_sky]) Ex.cfg (lit "GET")
                (posts_path (lit "general") 10) None (Ex.world MemoryStore.empty))
      as (_ & _ & _ & Hok).
    + apply example_url_allowed; vm_compute; reflexivity.
    + rewrite (Hok 1%nat 200 (lit "{...}") (Ex.feed_body [Ex.post_sky])).
      * vm_compute. reflexivity.
      * vm_compute. lia.
      * intros i Hi. assert (i = 0%nat) by lia. subst i. vm_compute. discriminate.
      * vm_compute. reflexivity.
      * lia.
Defined.

(** C4, as the specification words it, leaves out a failure. A reply with
    status 200 whose body is not JSON is none of the three failures the
    specification lists (no network error, no timeout, no status of 400 or
    more), so by its words the attempt is successful and its body is
    returned with no further retry. The code retries it like any other
    failure: three exchanges with sleeps of 1.2 and 2.4 seconds, then the
    [RuntimeError], citing the decoder's error. *)
Lemma unparseable_reply_is_retried :
  let w := Ex.world MemoryStore.empty in
  Spec.attempt_fails (http Ex3.env_garbled 0 Ex.fetch_request) = false
  /\ _request Ex3.env_garbled Ex.cfg (lit "GET") (posts_path (lit "general") 10) None w
     = (Raise (Exn RuntimeError
                   (lit "Moltbook request failed after retries: "
                    ++ lit "Expecting value: line 1 column 1 (char 0)")),
        with_network w
          [EvRequest Ex.fetch_request; EvSleep (PyFloat 1.2%float);
           EvRequest Ex.fetch_request; EvSleep (PyFloat 2.4%float);
           EvRequest Ex.fetch_request] 3).
Proof. split; vm_compute; reflexivity. Qed.

(** ** Sequencing *)

Lemma bind_ok {A B} (m : M A) (k : A -> M B) (w w' : World) (a : A) :
  m w = (Ok a, w') -> bind m k w = k a w'.
Proof. intros H. unfold bind. now rewrite H. Qed.

Lemma bind_raise {A B} (m : M A) (k : A -> M B) (w w' : World) (e : exn) :
  m w = (Raise e, w') -> bind m k w = (Raise e, w').
Proof. intros H. unfold bind. now rewrite H. Qed.

Lemma comment_count_spec (E : Env) (w : World) :
  comment_count_last_hour E w
  = (Ok (fst (MemoryStore.comment_count_last_hour (clock E (clock_reads w)) (file w))),
     after_count E w).
Proof. reflexivity. Qed.

(** ** What a call of the gateway can touch *)

Section Frame.

Variable E : Env.
Variable cfg : AgentConfig.

Lemma retry_loop_frame (r : Request) (remaining : nat) :
  forall (attempt : Z) (last_error : option exn) (w : World),
  exists evs calls,
    snd (retry_loop E cfg r remaining attempt last_error w) = with_network w evs calls
    /\ Forall (network_only r) evs.
Proof.
  induction remaining as [| k IH]; intros attempt last_error w.
  - exists [], 0%nat. cbn. rewrite with_network_nil. split; [reflexivity | constructor].
  - cbn [retry_loop]. unfold try_except. rewrite attempt_request_spec.
    destruct (attempt_result (http E (http_calls w) r)) as [body | e].
    + exists [EvRequest r], 1%nat. split; [reflexivity |].
      constructor; [now left | constructor].
    + unfold bind at 1. destruct (attempt <? max_retries cfg).
      * rewrite sleep_spec, with_network_twice.
        destruct (IH (attempt + 1) (Some e)
                     (with_network w ([EvRequest r] ++ [EvSleep (PyFloat (backoff attempt))])
                                   (1 + 0)))
          as (evs & calls & Hw & Hevs).
        exists (([EvRequest r] ++ [EvSleep (PyFloat (backoff attempt))]) ++ evs),
               (1 + 0 + calls)%nat.
        rewrite Hw, with_network_twice. split; [reflexivity |].
        apply Forall_app. split; [| exact Hevs].
        constructor; [now left |]. constructor; [right; eauto | constructor].
      * unfold ret at 1.
        destruct (IH (attempt + 1) (Some e) (with_network w [EvRequest r] 1))
          as (evs & calls & Hw & Hevs).
        exists ([EvRequest r] ++ evs), (1 + calls)%nat.
        rewrite Hw, with_network_twice. split; [reflexivity |].
        apply Forall_app. split; [| exact Hevs].
        constructor; [now left | constructor].
Qed.

Lemma check_url_cases (url : str) (w : World) :
  snd (_check_url E url w) = w.
Proof.
  unfold _check_url. destruct (urlparse E url) as [parsed | e]; [| reflexivity].
  destruct (negb (str_eqb (scheme parsed) allowed_scheme)
            || negb (str_eqb (netloc parsed) allowed_netloc)); reflexivity.
Qed.

(** A call of [_request] adds requests of its own and sleeps to the trace,
    and touches neither the state file nor the clock. *)
Lemma request_frame (method path : str) (payload : option (list (str * str)))
      (w : World) :
  exists evs calls,
    snd (_request E cfg method path payload w) = with_network w evs calls
    /\ Forall (network_only (request_of cfg method path payload)) evs.
Proof.
  unfold _request, bind.
  pose proof (check_url_cases (request_url cfg path) w) as Hw.
  destruct (_check_url E (request_url cfg path) w) as [[[] | e] w0];
    cbn [snd] in Hw; subst w0.
  - apply retry_loop_frame.
  - exists [], 0%nat. cbn [snd]. rewrite with_network_nil.
    split; [reflexivity | constructor].
Qed.

Lemma get_submolt_posts_frame (board : str) (limit : Z) (w : World) :
  exists evs calls,
    snd (get_submolt_posts E cfg board limit w) = with_network w evs calls
    /\ Forall (fun ev => is_post_request ev = false) evs.
Proof.
  unfold get_submolt_posts, bind.
  destruct (request_frame (lit "GET") (posts_path board limit) None w)
    as (evs & calls & Hw & Hevs).
  exists evs, calls. split.
  - destruct (_request E cfg (lit "GET") (posts_path board limit) None w) as [[out | e] w0];
      exact Hw.
  - eapply Forall_impl; [| exact Hevs].
    intros ev [-> | [d ->]]; reflexivity.
Qed.

End Frame.

(** ** The decision engine *)

Lemma decide_reply_selects (post : Post) (memory : Doc) (reply : str) :
  decide_reply post memory = Some reply ->
  reply = select_reply (combined_text post)
  /\ MemoryStore.has_advice (short_fingerprint reply) memory = false.
Proof.
  unfold decide_reply.
  destruct (List.length (combined_text post) <? 30)%nat; [discriminate |].
  destruct (negb (contains (lit "?") (combined_text post))
            && negb (contains (lit "debate") (lower (combined_text post)))
            && negb (contains (lit "why") (lower (combined_text post))));
    [discriminate |].
  destruct (MemoryStore.has_advice
              (short_fingerprint (select_reply (combined_text post))) memory) eqn:Hseen;
    [discriminate |].
  intros H. injection H as <-. now split.
Qed.

Lemma select_reply_template (combined : str) :
  select_reply combined = reply_default \/ select_reply combined = reply_sourcing.
Proof.
  unfold select_reply.
  destruct (contains (lit "misinformation") (lower combined)
            || contains (lit "false") (lower combined)); [now right | now left].
Qed.

Lemma decide_reply_template (post : Post) (memory : Doc) (reply : str) :
  decide_reply post memory = Some reply ->
  reply = reply_default \/ reply = reply_sourcing.
Proof.
  intros H. apply decide_reply_selects in H. destruct H as [-> _].
  apply select_reply_template.
Qed.

Lemma decide_reply_truthy (post : Post) (memory : Doc) (reply : str) :
  decide_reply post memory = Some reply -> truthy reply = true.
Proof.
  intros H. destruct (decide_reply_template _ _ _ H) as [-> | ->]; reflexivity.
Qed.

Lemma decide_reply_seen (post : Post) (memory : Doc) :
  MemoryStore.has_advice (short_fingerprint (select_reply (combined_text post))) memory
  = true ->
  decide_reply post memory = None.
Proof.
  intros Hseen. unfold decide_reply.
  destruct (List.length (combined_text post) <? 30)%nat; [reflexivity |].
  destruct (negb (contains (lit "?") (combined_text post))
            && negb (contains (lit "debate") (lower (combined_text post)))
            && negb (contains (lit "why") (lower (combined_text post))));
    [reflexivity |].
  now rewrite Hseen.
Qed.

Lemma decide_reply_templates_used (post : Post) (memory : Doc) :
  templates_used memory -> decide_reply post memory = None.
Proof.
  intros [Hd Hs]. apply decide_reply_seen.
  destruct (select_reply_template (combined_text post)) as [-> | ->]; assumption.
Qed.

(** ** The scan *)

Section Scan.

Variable E : Env.
Variable cfg : AgentConfig.

Lemma scan_cons_passed_over (post : Post) (rest : list Post) (w : World) :
  passed_over (file w) post = true ->
  scan E cfg (post :: rest) w = scan E cfg rest w.
Proof.
  unfold passed_over. intros H. cbn [scan].
  unfold has_replied, decide_reply_io, bind, _load, ret.
  destruct (truthy (post_id_of post)); cbn [negb orb] in *; [| reflexivity].
  destruct (MemoryStore.has_replied (post_id_of post) (file w));
    cbn [orb] in *; [reflexivity |].
  destruct (decide_reply post (file w)) as [text |]; [| reflexivity].
  now rewrite H.
Qed.

Lemma scan_passed_over (skipped : list Post) :
  forall (rest : list Post) (w : World),
    Forall (fun q => passed_over (file w) q = true) skipped ->
    scan E cfg (skipped ++ rest) w = scan E cfg rest w.
Proof.
  induction skipped as [| q skipped IH]; intros rest w Hall.
  - reflexivity.
  - inversion Hall as [| ? ? Hq Hrest]; subst.
    cbn [app]. rewrite scan_cons_passed_over by exact Hq. now apply IH.
Qed.

Lemma scan_cons_yields (post : Post) (rest : list Post) (reply : str) (w : World) :
  yields (file w) post reply ->
  scan E cfg (post :: rest) w = act E cfg (post_id_of post) reply w.
Proof.
  intros (Hid & Hfresh & Hreply). cbn [scan].
  unfold bind at 1. rewrite Hid. cbn [negb].
  unfold has_replied at 1, bind at 1, _load at 1, ret at 1. rewrite Hfresh.
  unfold bind at 1, decide_reply_io, bind at 1, _load at 1, ret at 1. rewrite Hreply.
  now rewrite (decide_reply_truthy _ _ _ Hreply).
Qed.

End Scan.

(** ** Acting on a candidate *)

Lemma acted_with_network (E : Env) (w : World) (post_id reply : str)
      (e1 e2 : list Event) (n1 n2 : nat) :
  acted E (with_network w e1 n1) post_id reply e2 n2
  = acted E w post_id reply (e1 ++ e2) (n1 + n2).
Proof.
  unfold acted, with_network; cbn [file trace http_calls clock_reads rand_draws].
  f_equal; [symmetry; apply app_assoc | lia].
Qed.

Section Act.

Variable E : Env.
Variable cfg : AgentConfig.

(** The three store calls after the reply. *)
Lemma persist_spec (post_id reply : str) (w : World) :
  (mark_replied post_id ;; add_advice (short_fingerprint reply) ;; record_comment_now E) w
  = (Ok tt, acted E w post_id reply [] 0).
Proof.
  unfold acted, mark_replied, add_advice, record_comment_now, bind, _load, _save,
    now_timestamp. cbn [file trace http_calls clock_reads rand_draws].
  rewrite app_nil_r, Nat.add_0_r. reflexivity.
Qed.

Lemma act_dry_run (post_id reply : str) (w : World) :
  dry_run cfg = true ->
  act E cfg post_id reply w
  = (Ok tt, acted E w post_id reply [EvPrint (dry_run_line post_id reply)] 0).
Proof.
  intros Hdry. unfold act. rewrite Hdry.
  rewrite (bind_ok _ _ _ _ _ (print_spec _ w)).
  rewrite persist_spec, acted_with_network. reflexivity.
Qed.

Lemma act_posted (post_id reply : str) (w w1 : World) (body : Body) :
  dry_run cfg = false ->
  comment E cfg post_id reply w = (Ok body, w1) ->
  act E cfg post_id reply w
  = (Ok tt, acted E w1 post_id reply [EvPrint (posted_line post_id)] 0).
Proof.
  intros Hdry Hcomment. unfold act. rewrite Hdry.
  assert (Hsay : (comment E cfg post_id reply ;; print (posted_line post_id)) w
                 = (Ok tt, with_network w1 [EvPrint (posted_line post_id)] 0)).
  { rewrite (bind_ok _ _ _ _ _ Hcomment). apply print_spec. }
  rewrite (bind_ok _ _ _ _ _ Hsay).
  rewrite persist_spec, acted_with_network. reflexivity.
Qed.

Lemma act_comment_raises (post_id reply : str) (w w1 : World) (e : exn) :
  dry_run cfg = false ->
  comment E cfg post_id reply w = (Raise e, w1) ->
  act E cfg post_id reply w = (Raise e, w1).
Proof.
  intros Hdry Hcomment. unfold act. rewrite Hdry.
  apply bind_raise. apply bind_raise. exact Hcomment.
Qed.


End Act.

(** ** The cycle *)



(** C8. When the count of the last hour, taken at the start of the cycle,
    is at least [max_comments_per_hour], the cycle prints the rate-limit line
    and returns: no request is sent, nothing is fetched, and the state file
    keeps its identifiers and fingerprints (its timestamps are the pruned
    ones the count itself saved). *)
Theorem run_once_rate_limited (E : Env) (cfg : AgentConfig) (w : World) :
  fst (MemoryStore.comment_count_last_hour (clock E (clock_reads w)) (file w))
  >= max_comments_per_hour cfg ->
  let w' := snd (run_once E cfg w) in
  run_once E cfg w = (Ok tt, with_network (after_count E w) [EvPrint rate_limit_line] 0)
  /\ http_calls w' = http_calls w
  /\ trace w' = trace w ++ [EvPrint rate_limit_line]
  /\ replied_post_ids (file w') = replied_post_ids (file w)
  /\ advice_fingerprints (file w') = advice_fingerprints (file w).
Proof.
  intros Hfull.
  assert (Hrun : run_once E cfg w
                 = (Ok tt, with_network (after_count E w) [EvPrint rate_limit_line] 0)).
  { unfold run_once. rewrite (bind_ok _ _ _ _ _ (comment_count_spec E w)).
    replace (_ >=? max_comments_per_hour cfg) with true
      by (symmetry; apply Z.geb_le; lia).
    apply print_spec. }
  cbv zeta. rewrite Hrun. cbn [snd with_network after_count http_calls trace file].
  repeat split. lia.
Qed.

Lemma run_once_rate_limited_witness :
  run_once Ex.env_down Ex.cfg (Ex.world Ex.doc_busy)
  = (Ok tt,
     {| file := Ex.doc_busy; trace := [EvPrint rate_limit_line];
        http_calls := 0; clock_reads := 1; rand_draws := 0 |}).
Proof.
  destruct (run_once_rate_limited Ex.env_down Ex.cfg (Ex.world Ex.doc_busy))
    as (Hrun & _).
  - vm_compute. discriminate.
  - rewrite Hrun. vm_compute. reflexivity.
Defined.

(** C5. With [dry_run] set, a cycle below the rate limit whose fetch returns
    a feed in which [p] is the first post to yield a candidate ends normally
    with the three records written: [p]'s identifier is marked replied, the
    reply's fingerprint is on record, and the clock reading is appended to
    the timestamps. After the fetch it sends nothing (the count of exchanges
    stays where the fetch left it), and the whole cycle sends no POST. *)
Theorem dry_run_cycle_persists
        (E : Env) (cfg : AgentConfig) (w w2 : World)
        (skipped : list Post) (p : Post) (rest : list Post) (reply : str) :
  dry_run cfg = true ->
  fst (MemoryStore.comment_count_last_hour (clock E (clock_reads w)) (file w))
  < max_comments_per_hour cfg ->
  get_submolt_posts E cfg (submolt cfg) (fetch_limit cfg) (after_count E w)
  = (Ok (skipped ++ p :: rest), w2) ->
  Forall (fun q => passed_over (file w2) q = true) skipped ->
  yields (file w2) p reply ->
  let w' := acted E w2 (post_id_of p) reply
                  [EvPrint (fetched_line cfg (skipped ++ p :: rest));
                   EvPrint (dry_run_line (post_id_of p) reply)] 0 in
  run_once E cfg w = (Ok tt, w')
  /\ MemoryStore.has_replied (post_id_of p) (file w') = true
  /\ MemoryStore.has_advice (short_fingerprint reply) (file w') = true
  /\ comment_timestamps (file w')
     = comment_timestamps (file w2) ++ [clock E (clock_reads w2)]
  /\ http_calls w' = http_calls w2
  /\ (exists evs, trace w' = trace w ++ evs
                  /\ Forall (fun ev => is_post_request ev = false) evs).
Proof.
  intros Hdry Hbelow Hfetch Hskipped Hyields. cbv zeta.
  split; [| split; [| split; [| split; [| split]]]].
  - unfold run_once. rewrite (bind_ok _ _ _ _ _ (comment_count_spec E w)).
    replace (_ >=? max_comments_per_hour cfg) with false
      by (symmetry; rewrite Z.geb_leb; apply Z.leb_gt; lia).
    rewrite (bind_ok _ _ _ _ _ Hfetch).
    rewrite (bind_ok _ _ _ _ _ (print_spec _ w2)).
    rewrite scan_passed_over by exact Hskipped.
    rewrite (scan_cons_yields E cfg p rest reply) by exact Hyields.
    rewrite act_dry_run by exact Hdry.
    rewrite acted_with_network. reflexivity.
  - apply has_replied_after_mark.
  - apply has_advice_after_add.
  - reflexivity.
  - cbn [acted http_calls]. lia.
  - destruct (get_submolt_posts_frame E cfg (submolt cfg) (fetch_limit cfg) (after_count E w))
      as (evs & calls & Hw2 & Hevs).
    rewrite Hfetch in Hw2. cbn [snd] in Hw2. subst w2.
    exists (evs ++ [EvPrint (fetched_line cfg (skipped ++ p :: rest));
                    EvPrint (dry_run_line (post_id_of p) reply)]).
    split.
    + cbn [acted with_network after_count trace]. now rewrite app_assoc.
    + apply Forall_app. split; [exact Hevs |].
      repeat constructor.
Qed.

Lemma dry_run_cycle_persists_witness :
  let E := Ex.env_up [Ex.post_sky; Ex.post_tides] in
  let w := Ex.world Ex.doc_replied_p1 in
  let w' := snd (run_once E Ex.cfg_dry w) in
  fst (run_once E Ex.cfg_dry w) = Ok tt
  /\ file w'
     = {| replied_post_ids := [lit "p1"; lit "p2"];
          advice_fingerprints := [short_fingerprint reply_default];
          comment_timestamps := [1700000000%float] |}
  /\ filter is_post_request (trace w') = []
  /\ http_calls w' = 1%nat.
Proof.
  cbv zeta.
  destruct (dry_run_cycle_persists
              (Ex.env_up [Ex.post_sky; Ex.post_tides]) Ex.cfg_dry
              (Ex.world Ex.doc_replied_p1)
              (with_network
                 (after_count (Ex.env_up [Ex.post_sky; Ex.post_tides])
                              (Ex.world Ex.doc_replied_p1))
                 [EvRequest Ex.fetch_request] 1)
              [Ex.post_sky] Ex.post_tides [] reply_default)
    as (Hrun & _).
  - reflexivity.
  - vm_compute. reflexivity.
  - vm_compute. reflexivity.
  - constructor; [vm_compute; reflexivity | constructor].
  - repeat split; vm_compute; reflexivity.
  - rewrite Hrun. repeat split; vm_compute; reflexivity.
Defined.

(** C6. For every post and every state of the store: on the reply text the
    engine selects, the code's fingerprint is the specified one (lowercase,
    whitespace runs collapsed to one space, first 160 characters); a
    candidate is returned only when that fingerprint is not on record; and
    when it is on record no candidate is returned, whatever the post. *)
Theorem decide_reply_suppresses_recorded_fingerprint (post : Post) (memory : Doc) :
  let reply := select_reply (combined_text post) in
  short_fingerprint reply = Spec.fingerprint reply
  /\ (forall candidate,
         decide_reply post memory = Some candidate ->
         candidate = reply
         /\ MemoryStore.has_advice (Spec.fingerprint candidate) memory = false)
  /\ (MemoryStore.has_advice (Spec.fingerprint reply) memory = true ->
      decide_reply post memory = None).
Proof.
  cbv zeta.
  assert (Hfp : short_fingerprint (select_reply (combined_text post))
                = Spec.fingerprint (select_reply (combined_text post))).
  { destruct (select_reply_template (combined_text post)) as [-> | ->];
      vm_compute; reflexivity. }
  split; [exact Hfp | split].
  - intros candidate H. apply decide_reply_selects in H. destruct H as [-> Hnew].
    split; [reflexivity | now rewrite <- Hfp].
  - intros Hseen. apply decide_reply_seen. now rewrite Hfp.
Qed.

Lemma decide_reply_suppresses_recorded_fingerprint_witness :
  let memory := {| replied_post_ids := [lit "p1"];
                   advice_fingerprints := [Spec.fingerprint reply_default];
                   comment_timestamps := [] |} in
  decide_reply Ex.post_tides MemoryStore.empty = Some reply_default
  /\ decide_reply Ex.post_tides memory = None.
Proof.
  cbv zeta. split.
  - vm_compute. reflexivity.
  - apply (proj2 (proj2 (decide_reply_suppresses_recorded_fingerprint Ex.post_tides
             {| replied_post_ids := [lit "p1"];
                advice_fingerprints := [Spec.fingerprint reply_default];
                comment_timestamps := [] |}))).
    vm_compute. reflexivity.
Defined.

(** Outside the templates the two fingerprints can differ: [split] also
    drops whitespace at the ends, which collapsing runs does not. *)
Remark fingerprint_outer_whitespace :
  short_fingerprint (lit " a") = lit "a" /\ Spec.fingerprint (lit " a") = lit " a".
Proof. split; reflexivity. Qed.

(** ** Once both templates are used *)

Lemma quiet_refl (w : World) : quiet w w.
Proof.
  repeat split. exists []. split; [now rewrite app_nil_r | constructor].
Qed.

Lemma quiet_trans (w1 w2 w3 : World) : quiet w1 w2 -> quiet w2 w3 -> quiet w1 w3.
Proof.
  intros (Hr1 & Ha1 & e1 & Ht1 & Hp1) (Hr2 & Ha2 & e2 & Ht2 & Hp2).
  repeat split; try congruence.
  exists (e1 ++ e2). split.
  - rewrite Ht2, Ht1. symmetry. apply app_assoc.
  - apply Forall_app. now split.
Qed.

Lemma quiet_with_network (w : World) (evs : list Event) (calls : nat) :
  Forall (fun ev => is_post_request ev = false) evs ->
  quiet w (with_network w evs calls).
Proof. intros Hevs. repeat split. now exists evs. Qed.

Lemma quiet_after_count (E : Env) (w : World) : quiet w (after_count E w).
Proof.
  repeat split. exists []. split; [cbn; now rewrite app_nil_r | constructor].
Qed.

Lemma templates_used_quiet (w w' : World) :
  quiet w w' -> templates_used (file w) -> templates_used (file w').
Proof.
  intros (_ & Ha & _). unfold templates_used, MemoryStore.has_advice. now rewrite Ha.
Qed.

Lemma passed_over_templates_used (memory : Doc) (q : Post) :
  templates_used memory -> passed_over memory q = true.
Proof.
  intros Hused. unfold passed_over.
  rewrite (decide_reply_templates_used q memory Hused). apply orb_true_r.
Qed.

Section Silence.

Variable E : Env.
Variable cfg : AgentConfig.

Lemma scan_templates_used (posts : list Post) (w : World) :
  templates_used (file w) -> scan E cfg posts w = (Ok tt, w).
Proof.
  intros Hused. rewrite <- (app_nil_r posts).
  rewrite scan_passed_over; [reflexivity |].
  apply Forall_forall. intros q _. now apply passed_over_templates_used.
Qed.

Lemma run_once_quiet (w : World) :
  templates_used (file w) -> quiet w (snd (run_once E cfg w)).
Proof.
  intros Hused. unfold run_once.
  rewrite (bind_ok _ _ _ _ _ (comment_count_spec E w)).
  pose proof (quiet_after_count E w) as Hcount.
  destruct (_ >=? max_comments_per_hour cfg).
  - rewrite print_spec. cbn [snd].
    eapply quiet_trans; [exact Hcount |].
    apply quiet_with_network. repeat constructor.
  - destruct (get_submolt_posts_frame E cfg (submolt cfg) (fetch_limit cfg)
                (after_count E w)) as (evs & calls & Hw2 & Hevs).
    destruct (get_submolt_posts E cfg (submolt cfg) (fetch_limit cfg) (after_count E w))
      as [[posts | e] w2] eqn:Hfetch; cbn [snd] in Hw2; subst w2.
    + rewrite (bind_ok _ _ _ _ _ Hfetch).
      rewrite (bind_ok _ _ _ _ _ (print_spec _ _)).
      rewrite with_network_twice.
      assert (Hq : quiet w (with_network (after_count E w)
                              (evs ++ [EvPrint (fetched_line cfg posts)]) (calls + 0))).
      { eapply quiet_trans; [exact Hcount |]. apply quiet_with_network.
        apply Forall_app. split; [exact Hevs | repeat constructor]. }
      rewrite scan_templates_used by exact (templates_used_quiet _ _ Hq Hused).
      exact Hq.
    + rewrite (bind_raise _ _ _ _ _ Hfetch). cbn [snd].
      eapply quiet_trans; [exact Hcount |]. now apply quiet_with_network.
Qed.

Lemma randint_quiet (a b : Z) (w : World) : quiet w (snd (randint E a b w)).
Proof.
  unfold randint. destruct (b <? a); cbn [snd].
  - apply quiet_refl.
  - repeat split. exists []. split; [cbn; now rewrite app_nil_r | constructor].
Qed.

Lemma main_loop_quiet (cycles : nat) :
  forall w : World,
    templates_used (file w) -> quiet w (snd (main_loop E cfg cycles w)).
Proof.
  induction cycles as [| cycles IH]; intros w Hused.
  - apply quiet_refl.
  - cbn [main_loop].
    pose proof (run_once_quiet w Hused) as Hrun.
    destruct (run_once E cfg w) as [[[] | e] w1] eqn:Hcycle; cbn [snd] in Hrun.
    2:{ rewrite (bind_raise _ _ _ _ _ Hcycle). exact Hrun. }
    rewrite (bind_ok _ _ _ _ _ Hcycle).
    pose proof (randint_quiet (min_loop_seconds cfg) (max_loop_seconds cfg) w1) as Hrand.
    destruct (randint E (min_loop_seconds cfg) (max_loop_seconds cfg) w1)
      as [[delay | e] w2] eqn:Hdelay; cbn [snd] in Hrand.
    2:{ rewrite (bind_raise _ _ _ _ _ Hdelay). cbn [snd].
        eapply quiet_trans; eassumption. }
    rewrite (bind_ok _ _ _ _ _ Hdelay).
    rewrite (bind_ok _ _ _ _ _ (print_spec _ _)).
    destruct (sleep_cases (PyInt delay) (with_network w2 [EvPrint (sleeping_line delay)] 0))
      as [Hsleep | [e Hsleep]].
    2:{ rewrite (bind_raise _ _ _ _ _ Hsleep). cbn [snd].
        eapply quiet_trans; [exact Hrun |]. eapply quiet_trans; [exact Hrand |].
        apply quiet_with_network. repeat constructor. }
    rewrite (bind_ok _ _ _ _ _ Hsleep).
    rewrite with_network_twice.
    assert (Hq : quiet w (with_network w2
                            ([EvPrint (sleeping_line delay)] ++ [EvSleep (PyInt delay)])
                            (0 + 0))).
    { eapply quiet_trans; [exact Hrun |]. eapply quiet_trans; [exact Hrand |].
      apply quiet_with_network. repeat constructor. }
    eapply quiet_trans; [exact Hq |].
    apply IH. exact (templates_used_quiet _ _ Hq Hused).
Qed.

Lemma act_records_fingerprint (post_id reply : str) (w w' : World) :
  act E cfg post_id reply w = (Ok tt, w') ->
  MemoryStore.has_advice (short_fingerprint reply) (file w') = true.
Proof.
  intros Hact. destruct (dry_run cfg) eqn:Hdry.
  - rewrite act_dry_run in Hact by exact Hdry.
    injection Hact as <-. apply has_advice_after_add.
  - destruct (comment E cfg post_id reply w) as [[body | e] w1] eqn:Hcomment.
    + rewrite (act_posted _ _ _ _ _ _ _ Hdry Hcomment) in Hact.
      injection Hact as <-. apply has_advice_after_add.
    + rewrite (act_comment_raises _ _ _ _ _ _ _ Hdry Hcomment) in Hact. discriminate.
Qed.

End Silence.

(** C10. A candidate of [decide_reply] is always one of the two templates.
    Hence, once both template fingerprints are on record, [decide_reply]
    returns no candidate for any post; and from such a state on, however many
    cycles [main] runs, no POST is ever sent and the identifiers and
    fingerprints on record stay as they are. Every reply that [act] completes
    puts its fingerprint on record, so each template is used at most once. *)
Theorem two_templates_then_silence :
  (forall (post : Post) (memory : Doc) (reply : str),
      decide_reply post memory = Some reply ->
      reply = reply_default \/ reply = reply_sourcing)
  /\ (forall memory : Doc,
         templates_used memory -> forall post : Post, decide_reply post memory = None)
  /\ (forall (E : Env) (cfg : AgentConfig) (cycles : nat) (w : World),
         templates_used (file w) ->
         quiet w (snd (main_loop E cfg cycles w))
         /\ templates_used (file (snd (main_loop E cfg cycles w))))
  /\ (forall (E : Env) (cfg : AgentConfig) (post_id reply : str) (w w' : World),
         act E cfg post_id reply w = (Ok tt, w') ->
         MemoryStore.has_advice (short_fingerprint reply) (file w') = true).
Proof.
  split; [exact decide_reply_template | split; [| split]].
  - intros memory Hused post. now apply decide_reply_templates_used.
  - intros E cfg cycles w Hused.
    pose proof (main_loop_quiet E cfg cycles w Hused) as Hq.
    split; [exact Hq | exact (templates_used_quiet _ _ Hq Hused)].
  - exact act_records_fingerprint.
Qed.

Lemma two_templates_then_silence_witness :
  let E := Ex.env_up [Ex.post_sky; Ex.post_tides; Ex.post_third] in
  let w := Ex.world Ex.doc_both_templates in
  decide_reply Ex.post_tides Ex.doc_both_templates = None
  /\ quiet w (snd (main_loop E Ex.cfg 3 w))
  /\ decide_reply Ex.post_third MemoryStore.empty = Some reply_sourcing.
Proof.
  cbv zeta.
  destruct two_templates_then_silence as (_ & Hnone & Hquiet & _).
  assert (Hused : templates_used Ex.doc_both_templates)
    by (split; vm_compute; reflexivity).
  split; [| split].
  - apply Hnone. exact Hused.
  - apply Hquiet. exact Hused.
  - vm_compute. reflexivity.
Defined.

(** ** Failures of the cycle and the outer loop *)

Section Failure.

Variable E : Env.
Variable cfg : AgentConfig.

Lemma main_loop_raises (cycles : nat) (w w' : World) (e : exn) :
  run_once E cfg w = (Raise e, w') ->
  main_loop E cfg (S cycles) w = (Raise e, w').
Proof. intros Hcycle. cbn [main_loop]. now apply bind_raise. Qed.

Lemma main_once_raises (cycles : nat) (w w' : World) (e : exn) :
  run_once E cfg (with_network w [EvPrint (starting_line cfg)] 0) = (Raise e, w') ->
  main E cfg true cycles w = (Raise e, w').
Proof.
  intros Hcycle. unfold main.
  rewrite (bind_ok _ _ _ _ _ (print_spec _ w)).
  now apply bind_raise.
Qed.

(** [n] iterations that ended normally are behind the loop. *)
Lemma main_loop_after_cycles (n m : nat) :
  forall w wn : World,
    after_cycles E cfg n w = Some wn ->
    main_loop E cfg (n + m) w = main_loop E cfg m wn.
Proof.
  induction n as [| n IH]; intros w wn Hn.
  - cbn in Hn. now injection Hn as ->.
  - cbn [after_cycles] in Hn. cbn [Nat.add main_loop].
    destruct (run_once E cfg w) as [[[] | e] w1] eqn:Hone.
    2:{ rewrite (bind_raise _ _ _ _ _ Hone) in Hn. discriminate. }
    rewrite (bind_ok _ _ _ _ _ Hone) in Hn. rewrite (bind_ok _ _ _ _ _ Hone).
    unfold pause in Hn.
    destruct (randint E (min_loop_seconds cfg) (max_loop_seconds cfg) w1)
      as [[delay | e] w2] eqn:Hdelay.
    2:{ rewrite (bind_raise _ _ _ _ _ Hdelay) in Hn. discriminate. }
    rewrite (bind_ok _ _ _ _ _ Hdelay) in Hn. rewrite (bind_ok _ _ _ _ _ Hdelay).
    rewrite (bind_ok _ _ _ _ _ (print_spec _ _)) in Hn.
    rewrite (bind_ok _ _ _ _ _ (print_spec _ _)).
    destruct (sleep (PyInt delay) (with_network w2 [EvPrint (sleeping_line delay)] 0))
      as [[[] | e] w3] eqn:Hsleep.
    2:{ discriminate. }
    rewrite (bind_ok _ _ _ _ _ Hsleep). now apply IH.
Qed.

Lemma main_forever_after_cycles (n m : nat) (w wn : World) :
  after_cycles E cfg n (with_network w [EvPrint (starting_line cfg)] 0) = Some wn ->
  main E cfg false (n + m) w = main_loop E cfg m wn.
Proof.
  intros Hn. unfold main.
  rewrite (bind_ok _ _ _ _ _ (print_spec _ w)).
  now apply main_loop_after_cycles.
Qed.

(** A cycle that raises after [before] iterations ends [main]. *)
Lemma main_raises_after_cycles (before cycles : nat) (w wn w' : World) (e : exn) :
  after_cycles E cfg before (with_network w [EvPrint (starting_line cfg)] 0) = Some wn ->
  run_once E cfg wn = (Raise e, w') ->
  main E cfg false (before + S cycles) w = (Raise e, w')
  /\ (before = 0%nat -> main E cfg true cycles w = (Raise e, w')).
Proof.
  intros Hn Hcycle. split.
  - rewrite (main_forever_after_cycles before (S cycles) w wn Hn).
    now apply main_loop_raises.
  - intros ->. cbn in Hn. injection Hn as <-. now apply main_once_raises.
Qed.

(** The fetch exhausts its retries: the cycle ends there with the
    aggregated failure. *)
Lemma run_once_fetch_exhausted_cited (w : World) (cited : str) :
  let r := request_of cfg (lit "GET") (posts_path (submolt cfg) (fetch_limit cfg)) None in
  let n := Z.to_nat (max_retries cfg) in
  fst (MemoryStore.comment_count_last_hour (clock E (clock_reads w)) (file w))
  < max_comments_per_hour cfg ->
  allowed E (req_url r) ->
  exhausts E r (http_calls w) n cited ->
  run_once E cfg w
  = (Raise (Exn RuntimeError (lit "Moltbook request failed after retries: " ++ cited)),
     with_network (after_count E w) (exhausted_events r n) n).
Proof.
  intros r n Hbelow Hallowed Hfail. unfold run_once.
  rewrite (bind_ok _ _ _ _ _ (comment_count_spec E w)).
  replace (_ >=? max_comments_per_hour cfg) with false
    by (symmetry; rewrite Z.geb_leb; apply Z.leb_gt; lia).
  apply bind_raise. unfold get_submolt_posts. apply bind_raise.
  apply (request_exhausted_cited E cfg (lit "GET")
           (posts_path (submolt cfg) (fetch_limit cfg)) None (after_count E w) Hallowed).
  exact Hfail.
Qed.

(** The comment for the first candidate exhausts its retries: the cycle
    ends there with the aggregated failure, after the fetch and its line. *)
Lemma run_once_comment_exhausted
      (w w1 : World) (skipped : list Post) (p : Post) (rest : list Post)
      (reply cited : str) :
  let r := comment_request cfg (post_id_of p) reply in
  let n := Z.to_nat (max_retries cfg) in
  fst (MemoryStore.comment_count_last_hour (clock E (clock_reads w)) (file w))
  < max_comments_per_hour cfg ->
  dry_run cfg = false ->
  get_submolt_posts E cfg (submolt cfg) (fetch_limit cfg) (after_count E w)
  = (Ok (skipped ++ p :: rest), w1) ->
  Forall (fun q => passed_over (file w1) q = true) skipped ->
  yields (file w1) p reply ->
  allowed E (req_url r) ->
  exhausts E r (http_calls w1) n cited ->
  run_once E cfg w
  = (Raise (Exn RuntimeError (lit "Moltbook request failed after retries: " ++ cited)),
     with_network w1
       (EvPrint (fetched_line cfg (skipped ++ p :: rest)) :: exhausted_events r n) n).
Proof.
  intros r n Hbelow Hlive Hfetch Hskipped Hyields Hallowed Hfail. unfold run_once.
  rewrite (bind_ok _ _ _ _ _ (comment_count_spec E w)).
  replace (_ >=? max_comments_per_hour cfg) with false
    by (symmetry; rewrite Z.geb_leb; apply Z.leb_gt; lia).
  rewrite (bind_ok _ _ _ _ _ Hfetch).
  rewrite (bind_ok _ _ _ _ _ (print_spec _ _)).
  rewrite (scan_passed_over E cfg skipped (p :: rest)
             (with_network w1 [EvPrint (fetched_line cfg (skipped ++ p :: rest))] 0)
             Hskipped).
  rewrite (scan_cons_yields E cfg p rest reply
             (with_network w1 [EvPrint (fetched_line cfg (skipped ++ p :: rest))] 0)
             Hyields).
  apply act_comment_raises; [exact Hlive |].
  unfold comment.
  assert (Hfail' : exhausts E r
                      (http_calls
                         (with_network w1
                            [EvPrint (fetched_line cfg (skipped ++ p :: rest))] 0))
                      n cited).
  { cbn [with_network http_calls]. now rewrite Nat.add_0_r. }
  rewrite (request_exhausted_cited E cfg (lit "POST") (comment_path (post_id_of p))
             (Some [(lit "content", reply)]) _ Hallowed cited Hfail').
  fold r. fold n. now rewrite with_network_twice.
Qed.

End Failure.

(** C1, as the code has it. [main] has no handler around the cycle, and no
    cycle has one around its gateway calls. Let [before] iterations of the
    loop have ended normally, and let the next cycle not be rate limited.
    - When the fetch of that cycle exhausts its retries, or, outside
      dry-run, the comment for the first candidate of the fetched feed does,
      the single [RuntimeError] of the gateway leaves [run_once] and [main]:
      in the continuous mode the loop ends in that cycle, whichever cycle it
      is, in the world the gateway call left (no delay drawn, no sleep
      between cycles, no further cycle, nothing recorded for the
      candidate); in the run-once mode the caller gets the same exception.
    - Any other exception that leaves the cycle leaves [main] in the same
      way. *)
Theorem gateway_failure_leaves_main
        (E : Env) (cfg : AgentConfig) (before cycles : nat) (w wn : World) :
  let n := Z.to_nat (max_retries cfg) in
  let fetch := request_of cfg (lit "GET") (posts_path (submolt cfg) (fetch_limit cfg)) None in
  after_cycles E cfg before (with_network w [EvPrint (starting_line cfg)] 0) = Some wn ->
  (forall cited : str,
      fst (MemoryStore.comment_count_last_hour (clock E (clock_reads wn)) (file wn))
      < max_comments_per_hour cfg ->
      allowed E (req_url fetch) ->
      exhausts E fetch (http_calls wn) n cited ->
      let failure :=
        Exn RuntimeError (lit "Moltbook request failed after retries: " ++ cited) in
      let w' := with_network (after_count E wn) (exhausted_events fetch n) n in
      main E cfg false (before + S cycles) w = (Raise failure, w')
      /\ (before = 0%nat -> main E cfg true cycles w = (Raise failure, w'))
      /\ rand_draws w' = rand_draws wn
      /\ file w' = file (after_count E wn))
  /\ (forall (cited : str) (w1 : World) (skipped : list Post) (p : Post)
             (rest : list Post) (reply : str),
      fst (MemoryStore.comment_count_last_hour (clock E (clock_reads wn)) (file wn))
      < max_comments_per_hour cfg ->
      dry_run cfg = false ->
      get_submolt_posts E cfg (submolt cfg) (fetch_limit cfg) (after_count E wn)
      = (Ok (skipped ++ p :: rest), w1) ->
      Forall (fun q => passed_over (file w1) q = true) skipped ->
      yields (file w1) p reply ->
      let post := comment_request cfg (post_id_of p) reply in
      allowed E (req_url post) ->
      exhausts E post (http_calls w1) n cited ->
      let failure :=
        Exn RuntimeError (lit "Moltbook request failed after retries: " ++ cited) in
      let w' :=
        with_network w1
          (EvPrint (fetched_line cfg (skipped ++ p :: rest)) :: exhausted_events post n) n in
      main E cfg false (before + S cycles) w = (Raise failure, w')
      /\ (before = 0%nat -> main E cfg true cycles w = (Raise failure, w'))
      /\ rand_draws w' = rand_draws wn
      /\ file w' = file (after_count E wn))
  /\ (forall (e : exn) (w' : World),
      run_once E cfg wn = (Raise e, w') ->
      main E cfg false (before + S cycles) w = (Raise e, w')
      /\ (before = 0%nat -> main E cfg true cycles w = (Raise e, w'))).
Proof.
  intros n fetch Hbefore. split; [| split].
  - intros cited Hbelow Hallowed Hfail. cbv zeta.
    pose proof (run_once_fetch_exhausted_cited E cfg wn cited Hbelow Hallowed Hfail)
      as Hcycle.
    cbv zeta in Hcycle.
    destruct (main_raises_after_cycles E cfg before cycles w wn _ _ Hbefore Hcycle)
      as [Hforever Honce].
    split; [exact Hforever | split; [exact Honce | split; reflexivity]].
  - intros cited w1 skipped p rest reply Hbelow Hlive Hfetch Hskipped Hyields.
    cbv zeta. intros Hallowed Hfail.
    pose proof (run_once_comment_exhausted E cfg wn w1 skipped p rest reply cited
                  Hbelow Hlive Hfetch Hskipped Hyields Hallowed Hfail) as Hcycle.
    cbv zeta in Hcycle.
    destruct (main_raises_after_cycles E cfg before cycles w wn _ _ Hbefore Hcycle)
      as [Hforever Honce].
    destruct (get_submolt_posts_frame E cfg (submolt cfg) (fetch_limit cfg)
                (after_count E wn)) as (evs & calls & Hw1 & _).
    rewrite Hfetch in Hw1. cbn [snd] in Hw1.
    split; [exact Hforever | split; [exact Honce | split]].
    + rewrite Hw1. reflexivity.
    + rewrite Hw1. reflexivity.
  - intros e w' Hcycle.
    exact (main_raises_after_cycles E cfg before cycles w wn w' e Hbefore Hcycle).
Qed.

Lemma gateway_failure_leaves_main_witness :
  let down := Exn RuntimeError
                  (lit "Moltbook request failed after retries: HTTP 500: oops") in
  let refused := Exn RuntimeError
                     (lit "Moltbook request failed after retries: HTTP 403: forbidden") in
  let start := Ex.world MemoryStore.empty in
  (fst (main Ex3.env_fading Ex.cfg false 5 start) = Raise down
   /\ http_calls (snd (main Ex3.env_fading Ex.cfg false 5 start)) = 4%nat
   /\ rand_draws (snd (main Ex3.env_fading Ex.cfg false 5 start)) = 1%nat)
  /\ (fst (main (Ex2.env_read_only [Ex.post_sky]) Ex.cfg false 5 start) = Raise refused
      /\ fst (main (Ex2.env_read_only [Ex.post_sky]) Ex.cfg true 4 start) = Raise refused
      /\ file (snd (main (Ex2.env_read_only [Ex.post_sky]) Ex.cfg false 5 start))
         = MemoryStore.empty).
Proof.
  cbv zeta. split.
  - destruct (gateway_failure_leaves_main Ex3.env_fading Ex.cfg 1 3
                (Ex.world MemoryStore.empty) Ex3.world_after_first_cycle)
      as (Hfetch & _).
    + vm_compute. reflexivity.
    + destruct (Hfetch (lit "HTTP 500: oops")) as (Hforever & _).
      * vm_compute. reflexivity.
      * apply example_url_allowed; vm_compute; reflexivity.
      * split; [intros i _; vm_compute; discriminate | vm_compute; reflexivity].
      * change (1 + 4)%nat with 5%nat in Hforever. rewrite Hforever.
        repeat split; vm_compute; reflexivity.
  - destruct (gateway_failure_leaves_main (Ex2.env_read_only [Ex.post_sky]) Ex.cfg 0 4
                (Ex.world MemoryStore.empty)
                (with_network (Ex.world MemoryStore.empty)
                              [EvPrint (starting_line Ex.cfg)] 0))
      as (_ & Hcomment & _).
    + reflexivity.
    + destruct (Hcomment (lit "HTTP 403: forbidden")
                  (snd (get_submolt_posts (Ex2.env_read_only [Ex.post_sky]) Ex.cfg
                          (submolt Ex.cfg) (fetch_limit Ex.cfg)
                          (after_count (Ex2.env_read_only [Ex.post_sky])
                             (with_network (Ex.world MemoryStore.empty)
                                           [EvPrint (starting_line Ex.cfg)] 0))))
                  [] Ex.post_sky [] reply_default)
        as (Hforever & Honce & _ & Hfile).
      * vm_compute. reflexivity.
      * reflexivity.
      * vm_compute. reflexivity.
      * constructor.
      * repeat split; vm_compute; reflexivity.
      * exists {| scheme := allowed_scheme; netloc := allowed_netloc |}.
        split; [vm_compute; reflexivity | split; reflexivity].
      * split; [intros i _; vm_compute; discriminate | vm_compute; reflexivity].
      * change (0 + 5)%nat with 5%nat in Hforever.
        rewrite Hforever, (Honce eq_refl).
        split; [reflexivity | split; [reflexivity |]].
        cbn [snd]. rewrite Hfile. vm_compute. reflexivity.
Defined.

(** C1, as the specification words it, fails in the continuous mode. Against a
    server that answers 500 to everything, [main] allowed two cycles ends
    with the aggregated failure of the first: three exchanges in all (the
    first cycle's attempts), no delay drawn, no inter-cycle sleep, and an
    exception instead of a second cycle. *)
Lemma loop_mode_dies_on_exhaustion :
  let outcome := main Ex.env_down Ex.cfg false 2 (Ex.world MemoryStore.empty) in
  fst outcome
  = Raise (Exn RuntimeError (lit "Moltbook request failed after retries: HTTP 500: oops"))
  /\ trace (snd outcome)
     = [EvPrint (starting_line Ex.cfg);
        EvRequest Ex.fetch_request; EvSleep (PyFloat 1.2%float);
        EvRequest Ex.fetch_request; EvSleep (PyFloat 2.4%float);
        EvRequest Ex.fetch_request]
  /\ http_calls (snd outcome) = 3%nat
  /\ rand_draws (snd outcome) = 0%nat.
Proof. vm_compute. repeat split. Qed.

(* ================================================================== *)
(** * Further properties of the store *)

Lemma add_advice_twice (f : str) (d : Doc) :
  MemoryStore.add_advice f (MemoryStore.add_advice f d) = MemoryStore.add_advice f d.
Proof.
  pose proof (has_advice_after_add f d) as H.
  unfold MemoryStore.has_advice in H.
  unfold MemoryStore.add_advice at 1. rewrite H. reflexivity.
Qed.

(** X1. For every fingerprint and every state of the store: after
    [add_advice(f)], [has_advice(f)] returns [True], and a second
    [add_advice(f)] writes back the document it read. *)
Theorem add_advice_idempotent (f : str) (w : World) :
  let w1 := snd (add_advice f w) in
  fst (add_advice f w) = Ok tt
  /\ has_advice f w1 = (Ok true, w1)
  /\ add_advice f w1 = (Ok tt, w1).
Proof.
  cbv zeta. unfold add_advice, has_advice, bind, _load, _save, ret.
  cbn -[MemoryStore.add_advice MemoryStore.has_advice].
  rewrite has_advice_after_add, add_advice_twice. repeat split; reflexivity.
Qed.

Lemma mem_snoc_other (x y : str) (xs : list str) :
  mem x (xs ++ [y]) = mem x xs || str_eqb x y.
Proof. unfold mem. rewrite existsb_app. cbn. now rewrite orb_false_r. Qed.

Lemma mem_insert (x y : str) (xs : list str) :
  mem x (if mem y xs then xs else xs ++ [y]) = str_eqb x y || mem x xs.
Proof.
  destruct (mem y xs) eqn:Hy.
  - destruct (str_eqb x y) eqn:Hxy; [| reflexivity].
    apply str_eqb_eq in Hxy. subst x. exact Hy.
  - rewrite mem_snoc_other. apply orb_comm.
Qed.

(** X2. Looking up after an insert: [q] is replied after [mark_replied(p)]
    exactly when [q] is [p] or was replied before, and likewise for
    fingerprints; neither insert touches the other container nor the
    timestamps, and recording a timestamp touches neither container. *)
Theorem lookup_after_insert (p q f g : str) (now : float) (d : Doc) :
  MemoryStore.has_replied q (MemoryStore.mark_replied p d)
  = str_eqb q p || MemoryStore.has_replied q d
  /\ MemoryStore.has_advice g (MemoryStore.add_advice f d)
     = str_eqb g f || MemoryStore.has_advice g d
  /\ MemoryStore.has_advice g (MemoryStore.mark_replied p d) = MemoryStore.has_advice g d
  /\ MemoryStore.has_replied q (MemoryStore.add_advice f d) = MemoryStore.has_replied q d
  /\ comment_timestamps (MemoryStore.add_advice f (MemoryStore.mark_replied p d))
     = comment_timestamps d
  /\ MemoryStore.has_replied q (MemoryStore.record_comment_now now d)
     = MemoryStore.has_replied q d
  /\ MemoryStore.has_advice g (MemoryStore.record_comment_now now d)
     = MemoryStore.has_advice g d.
Proof.
  unfold MemoryStore.has_replied, MemoryStore.has_advice, MemoryStore.mark_replied,
    MemoryStore.add_advice, MemoryStore.record_comment_now.
  cbn [replied_post_ids advice_fingerprints comment_timestamps].
  repeat split; apply mem_insert.
Qed.

Lemma NoDup_insert (y : str) (xs : list str) :
  NoDup xs -> NoDup (if mem y xs then xs else xs ++ [y]).
Proof.
  intros Hnd. destruct (mem y xs) eqn:Hy; [exact Hnd |].
  apply NoDup_app; [exact Hnd | repeat constructor; intros [] | ].
  intros x Hx [<- | []]. apply mem_In in Hx. congruence.
Qed.

Lemma tidy_mark_replied (p : str) (d : Doc) : tidy d -> tidy (MemoryStore.mark_replied p d).
Proof. intros [Hr Ha]. split; [now apply NoDup_insert | exact Ha]. Qed.

Lemma tidy_add_advice (f : str) (d : Doc) : tidy d -> tidy (MemoryStore.add_advice f d).
Proof. intros [Hr Ha]. split; [exact Hr | now apply NoDup_insert]. Qed.

Lemma count_filter_app (now : float) (xs ys : list float) :
  List.length (filter (MemoryStore.is_recent now) (xs ++ ys))
  = (List.length (filter (MemoryStore.is_recent now) xs)
     + List.length (filter (MemoryStore.is_recent now) ys))%nat.
Proof. now rewrite filter_app, length_app. Qed.

(** X3. Recording and counting compose: a comment recorded at clock
    reading [t] is counted by a later count at [now] exactly when
    [(now - t) < 3600] holds, and then the count is one more than it would
    have been; the new timestamp goes to the end of the sequence. *)
Theorem record_then_count (t now : float) (d : Doc) :
  fst (MemoryStore.comment_count_last_hour now (MemoryStore.record_comment_now t d))
  = fst (MemoryStore.comment_count_last_hour now d)
    + (if MemoryStore.is_recent now t then 1 else 0)
  /\ comment_timestamps
       (snd (MemoryStore.comment_count_last_hour now (MemoryStore.record_comment_now t d)))
     = comment_timestamps (snd (MemoryStore.comment_count_last_hour now d))
       ++ (if MemoryStore.is_recent now t then [t] else []).
Proof.
  unfold MemoryStore.comment_count_last_hour, MemoryStore.record_comment_now.
  cbn [fst snd comment_timestamps]. rewrite filter_app. cbn [filter].
  destruct (MemoryStore.is_recent now t); rewrite ?length_app; cbn [List.length];
    split; try reflexivity; lia.
Qed.

Lemma filter_twice (now : float) (xs : list float) :
  filter (MemoryStore.is_recent now) (filter (MemoryStore.is_recent now) xs)
  = filter (MemoryStore.is_recent now) xs.
Proof.
  induction xs as [| x xs IH]; [reflexivity |]. cbn [filter].
  destruct (MemoryStore.is_recent now x) eqn:Hx; [| exact IH].
  cbn [filter]. now rewrite Hx, IH.
Qed.

(** X4. Pruning only removes: the count never exceeds the number of stored
    timestamps, every timestamp kept was stored before, and counting again
    at the same clock reading returns the same count and rewrites the same
    document. *)
Theorem count_prunes_once (now : float) (d : Doc) :
  let counted := MemoryStore.comment_count_last_hour now d in
  0 <= fst counted <= Z.of_nat (List.length (comment_timestamps d))
  /\ incl (comment_timestamps (snd counted)) (comment_timestamps d)
  /\ MemoryStore.comment_count_last_hour now (snd counted) = counted.
Proof.
  cbv zeta. unfold MemoryStore.comment_count_last_hour.
  cbn [fst snd comment_timestamps replied_post_ids advice_fingerprints].
  split; [| split].
  - pose proof (filter_length_le (MemoryStore.is_recent now) (comment_timestamps d)). lia.
  - intros ts Hts. apply filter_In in Hts. tauto.
  - now rewrite filter_twice.
Qed.

(* ================================================================== *)
(** * Further properties of the cycle *)

Lemma passed_over_false (memory : Doc) (p : Post) :
  passed_over memory p = false -> exists reply, yields memory p reply.
Proof.
  unfold passed_over, yields. intros H.
  apply orb_false_elim in H. destruct H as [H Hdecide].
  apply orb_false_elim in H. destruct H as [Hid Hreplied].
  apply negb_false_iff in Hid.
  destruct (decide_reply p memory) as [reply |]; [| discriminate].
  exists reply. repeat split; assumption.
Qed.

Section Cases.

Variable E : Env.
Variable cfg : AgentConfig.

(** The loop over the feed either passes every post over, or acts on the
    first post that yields a candidate. *)
Lemma scan_cases (posts : list Post) :
  forall w : World,
    (Forall (fun q => passed_over (file w) q = true) posts
     /\ scan E cfg posts w = (Ok tt, w))
    \/ (exists skipped p rest reply,
           posts = skipped ++ p :: rest
           /\ Forall (fun q => passed_over (file w) q = true) skipped
           /\ yields (file w) p reply
           /\ scan E cfg posts w = act E cfg (post_id_of p) reply w).
Proof.
  induction posts as [| q posts IH]; intros w.
  - left. split; [constructor | reflexivity].
  - destruct (passed_over (file w) q) eqn:Hq.
    + rewrite scan_cons_passed_over by exact Hq.
      destruct (IH w) as [[Hall Hscan] | (skipped & p & rest & reply & -> & Hall & Hy & Hscan)].
      * left. split; [now constructor | exact Hscan].
      * right. exists (q :: skipped), p, rest, reply.
        split; [reflexivity | split; [now constructor | split; [exact Hy | exact Hscan]]].
    + destruct (passed_over_false _ _ Hq) as [reply Hy].
      right. exists [], q, posts, reply.
      split; [reflexivity | split; [constructor | split; [exact Hy |]]].
      now apply scan_cons_yields.
Qed.

(** What [act] comes to: the three records written after the events of the
    reply, or (outside dry-run) the comment's failure with nothing written. *)
Lemma act_cases (post_id reply : str) (w : World) :
  exists evs calls,
    Forall (cycle_event cfg) evs
    /\ Forall (fun ev => is_request ev = true ->
                         ev = EvRequest (comment_request cfg post_id reply)) evs
    /\ (act E cfg post_id reply w = (Ok tt, acted E w post_id reply evs calls)
        \/ exists e, act E cfg post_id reply w = (Raise e, with_network w evs calls)).
Proof.
  destruct (dry_run cfg) eqn:Hdry.
  - exists [EvPrint (dry_run_line post_id reply)], 0%nat.
    split; [| split].
    + constructor; [now left | constructor].
    + constructor; [discriminate | constructor].
    + left. now apply act_dry_run.
  - destruct (request_frame E cfg (lit "POST") (comment_path post_id)
                (Some [(lit "content", reply)]) w) as (evs & calls & Hw & Hevs).
    fold (comment E cfg post_id reply) in Hw.
    assert (Hcycle : Forall (cycle_event cfg) evs).
    { eapply Forall_impl; [| exact Hevs].
      intros ev [-> | [d ->]]; [right | now left].
      split; [exact Hdry | now exists post_id, reply]. }
    assert (Hreq : Forall (fun ev => is_request ev = true ->
                                     ev = EvRequest (comment_request cfg post_id reply)) evs).
    { eapply Forall_impl; [| exact Hevs].
      intros ev [-> | [d ->]]; [reflexivity | discriminate]. }
    destruct (comment E cfg post_id reply w) as [[body | e] w1] eqn:Hcomment;
      cbn [snd] in Hw; subst w1.
    + exists (evs ++ [EvPrint (posted_line post_id)]), (calls + 0)%nat.
      split; [| split].
      * apply Forall_app. split; [exact Hcycle |]. constructor; [now left | constructor].
      * apply Forall_app. split; [exact Hreq |]. constructor; [discriminate | constructor].
      * left. rewrite (act_posted E cfg _ _ _ _ _ Hdry Hcomment).
        now rewrite acted_with_network.
    + exists evs, calls. split; [exact Hcycle | split; [exact Hreq |]].
      right. exists e. now apply act_comment_raises.
Qed.

(** What a cycle comes to: the pruned store with some events added and no
    record written (rate limit, failed fetch, nothing to reply to, failed
    comment), or, below the rate limit, the three records written for a post
    that yields a candidate. *)
Lemma run_once_cases (w : World) :
  exists evs calls,
    Forall (cycle_event cfg) evs
    /\ ((exists outcome, run_once E cfg w = (outcome, with_network (after_count E w) evs calls))
        \/ (fst (MemoryStore.comment_count_last_hour (clock E (clock_reads w)) (file w))
            < max_comments_per_hour cfg
            /\ exists p reply,
                yields (file (after_count E w)) p reply
                /\ run_once E cfg w
                   = (Ok tt, acted E (after_count E w) (post_id_of p) reply evs calls))).
Proof.
  unfold run_once. rewrite (bind_ok _ _ _ _ _ (comment_count_spec E w)).
  destruct (_ >=? max_comments_per_hour cfg) eqn:Hfull.
  - exists [EvPrint rate_limit_line], 0%nat. split.
    + constructor; [now left | constructor].
    + left. exists (Ok tt). apply print_spec.
  - assert (Hbelow : fst (MemoryStore.comment_count_last_hour
                            (clock E (clock_reads w)) (file w))
                     < max_comments_per_hour cfg).
    { rewrite Z.geb_leb in Hfull. apply Z.leb_gt in Hfull. lia. }
    destruct (get_submolt_posts_frame E cfg (submolt cfg) (fetch_limit cfg)
                (after_count E w)) as (evs & calls & Hw2 & Hevs).
    assert (Hfetched : Forall (cycle_event cfg) evs).
    { eapply Forall_impl; [| exact Hevs]. intros ev Hev. now left. }
    destruct (get_submolt_posts E cfg (submolt cfg) (fetch_limit cfg) (after_count E w))
      as [[posts | e] w2] eqn:Hfetch; cbn [snd] in Hw2; subst w2.
    2:{ exists evs, calls. split; [exact Hfetched |].
        left. exists (Raise e). now apply bind_raise. }
    rewrite (bind_ok _ _ _ _ _ Hfetch).
    rewrite (bind_ok _ _ _ _ _ (print_spec _ _)).
    rewrite with_network_twice.
    set (w3 := with_network (after_count E w)
                 (evs ++ [EvPrint (fetched_line cfg posts)]) (calls + 0)).
    assert (Hseen : Forall (cycle_event cfg) (evs ++ [EvPrint (fetched_line cfg posts)])).
    { apply Forall_app. split; [exact Hfetched |]. constructor; [now left | constructor]. }
    destruct (scan_cases posts w3)
      as [[_ Hscan] | (skipped & p & rest & reply & _ & _ & Hy & Hscan)].
    + exists (evs ++ [EvPrint (fetched_line cfg posts)]), (calls + 0)%nat.
      split; [exact Hseen |]. left. exists (Ok tt). exact Hscan.
    + rewrite Hscan.
      destruct (act_cases (post_id_of p) reply w3) as (evs' & calls' & Hevs' & _ & Hact).
      exists ((evs ++ [EvPrint (fetched_line cfg posts)]) ++ evs'), (calls + 0 + calls')%nat.
      split; [apply Forall_app; now split |].
      destruct Hact as [Hact | [e Hact]]; rewrite Hact.
      * right. split; [exact Hbelow |]. exists p, reply. split; [exact Hy |].
        unfold w3. now rewrite acted_with_network.
      * left. exists (Raise e). unfold w3. now rewrite with_network_twice.
Qed.

End Cases.

Lemma incl_insert (y : str) (xs : list str) :
  incl xs (if mem y xs then xs else xs ++ [y]).
Proof.
  destruct (mem y xs); [apply incl_refl | apply incl_appl, incl_refl].
Qed.

Lemma length_insert (y : str) (xs : list str) :
  (List.length (if mem y xs then xs else xs ++ [y]) <= List.length xs + 1)%nat.
Proof.
  destruct (mem y xs); [lia | rewrite length_app; cbn; lia].
Qed.

Section Cycles.

Variable E : Env.
Variable cfg : AgentConfig.

Lemma randint_file (a b : Z) (w : World) : file (snd (randint E a b w)) = file w.
Proof. unfold randint. destruct (b <? a); reflexivity. Qed.

(** The outer loop touches the state file only through its cycles. *)
Lemma main_loop_file_invariant (P : Doc -> Prop) :
  (forall w, P (file w) -> P (file (snd (run_once E cfg w)))) ->
  forall (cycles : nat) (w : World),
    P (file w) -> P (file (snd (main_loop E cfg cycles w))).
Proof.
  intros Hcycle. induction cycles as [| cycles IH]; intros w HP; [exact HP |].
  cbn [main_loop].
  pose proof (Hcycle w HP) as Hrun.
  destruct (run_once E cfg w) as [[[] | e] w1] eqn:Hone; cbn [snd] in Hrun.
  2:{ now rewrite (bind_raise _ _ _ _ _ Hone). }
  rewrite (bind_ok _ _ _ _ _ Hone).
  pose proof (randint_file (min_loop_seconds cfg) (max_loop_seconds cfg) w1) as Hrand.
  destruct (randint E (min_loop_seconds cfg) (max_loop_seconds cfg) w1)
    as [[delay | e] w2] eqn:Hdelay; cbn [snd] in Hrand.
  2:{ rewrite (bind_raise _ _ _ _ _ Hdelay). cbn [snd]. now rewrite Hrand. }
  rewrite (bind_ok _ _ _ _ _ Hdelay).
  rewrite (bind_ok _ _ _ _ _ (print_spec _ _)).
  destruct (sleep_cases (PyInt delay) (with_network w2 [EvPrint (sleeping_line delay)] 0))
    as [Hsleep | [e Hsleep]].
  2:{ rewrite (bind_raise _ _ _ _ _ Hsleep). cbn [snd with_network file]. now rewrite Hrand. }
  rewrite (bind_ok _ _ _ _ _ Hsleep).
  apply IH. cbn [with_network file]. now rewrite Hrand.
Qed.

Lemma no_post_between_refl (w : World) : no_post_between w w.
Proof. exists []. split; [now rewrite app_nil_r | constructor]. Qed.

Lemma no_post_between_trans (w1 w2 w3 : World) :
  no_post_between w1 w2 -> no_post_between w2 w3 -> no_post_between w1 w3.
Proof.
  intros (e1 & Ht1 & Hp1) (e2 & Ht2 & Hp2). exists (e1 ++ e2). split.
  - rewrite Ht2, Ht1. symmetry. apply app_assoc.
  - apply Forall_app. now split.
Qed.

Lemma no_post_with_network (w : World) (evs : list Event) (calls : nat) :
  Forall (fun ev => is_post_request ev = false) evs ->
  no_post_between w (with_network w evs calls).
Proof. intros Hevs. now exists evs. Qed.

Lemma randint_no_post (a b : Z) (w : World) : no_post_between w (snd (randint E a b w)).
Proof.
  unfold randint. destruct (b <? a); cbn [snd]; [apply no_post_between_refl |].
  exists []. split; [cbn; now rewrite app_nil_r | constructor].
Qed.

Lemma main_loop_no_post :
  (forall w, no_post_between w (snd (run_once E cfg w))) ->
  forall (cycles : nat) (w : World), no_post_between w (snd (main_loop E cfg cycles w)).
Proof.
  intros Hcycle. induction cycles as [| cycles IH]; intros w;
    [apply no_post_between_refl |].
  cbn [main_loop].
  pose proof (Hcycle w) as Hrun.
  destruct (run_once E cfg w) as [[[] | e] w1] eqn:Hone; cbn [snd] in Hrun.
  2:{ now rewrite (bind_raise _ _ _ _ _ Hone). }
  rewrite (bind_ok _ _ _ _ _ Hone).
  pose proof (randint_no_post (min_loop_seconds cfg) (max_loop_seconds cfg) w1) as Hrand.
  destruct (randint E (min_loop_seconds cfg) (max_loop_seconds cfg) w1)
    as [[delay | e] w2] eqn:Hdelay; cbn [snd] in Hrand.
  2:{ rewrite (bind_raise _ _ _ _ _ Hdelay). cbn [snd].
      eapply no_post_between_trans; eassumption. }
  rewrite (bind_ok _ _ _ _ _ Hdelay).
  rewrite (bind_ok _ _ _ _ _ (print_spec _ _)).
  destruct (sleep_cases (PyInt delay) (with_network w2 [EvPrint (sleeping_line delay)] 0))
    as [Hsleep | [e Hsleep]].
  2:{ rewrite (bind_raise _ _ _ _ _ Hsleep). cbn [snd].
      eapply no_post_between_trans; [exact Hrun |].
      eapply no_post_between_trans; [exact Hrand |].
      apply no_post_with_network. repeat constructor. }
  rewrite (bind_ok _ _ _ _ _ Hsleep).
  rewrite with_network_twice.
  eapply no_post_between_trans; [exact Hrun |].
  eapply no_post_between_trans; [exact Hrand |].
  eapply no_post_between_trans; [| apply IH].
  apply no_post_with_network. repeat constructor.
Qed.

Lemma run_once_dry_no_post (w : World) :
  dry_run cfg = true -> no_post_between w (snd (run_once E cfg w)).
Proof.
  intros Hdry.
  destruct (run_once_cases E cfg w) as (evs & calls & Hevs & Hcase).
  assert (Hquiet : Forall (fun ev => is_post_request ev = false) evs).
  { eapply Forall_impl; [| exact Hevs].
    intros ev [Hev | [Hlive _]]; [exact Hev | congruence]. }
  destruct Hcase as [[outcome Hrun] | (_ & p & reply & _ & Hrun)];
    rewrite Hrun; cbn [snd]; now exists evs.
Qed.

(** The state file after a cycle: the pruned one, or the pruned one with the
    three records of one reply. *)
Lemma run_once_file (w : World) :
  let pruned := file (after_count E w) in
  file (snd (run_once E cfg w)) = pruned
  \/ (fst (MemoryStore.comment_count_last_hour (clock E (clock_reads w)) (file w))
      < max_comments_per_hour cfg
      /\ fst (run_once E cfg w) = Ok tt
      /\ exists p reply t,
          yields pruned p reply
          /\ file (snd (run_once E cfg w))
             = MemoryStore.record_comment_now t
                 (MemoryStore.add_advice (short_fingerprint reply)
                    (MemoryStore.mark_replied (post_id_of p) pruned))).
Proof.
  cbv zeta.
  destruct (run_once_cases E cfg w)
    as (evs & calls & _ & [[outcome Hrun] | (Hbelow & p & reply & Hy & Hrun)]);
    rewrite Hrun; cbn [fst snd].
  - now left.
  - right. split; [exact Hbelow | split; [reflexivity |]].
    exists p, reply, (clock E (clock_reads (after_count E w))). now split.
Qed.

End Cycles.

(** X5. With [dry_run] set, whatever the network, the feed and the store
    hold, no cycle sends a POST, and neither does the continuous loop over
    any number of cycles. *)
Theorem dry_run_never_posts (E : Env) (cfg : AgentConfig) (cycles : nat) (w : World) :
  dry_run cfg = true ->
  no_post_between w (snd (run_once E cfg w))
  /\ no_post_between w (snd (main_loop E cfg cycles w)).
Proof.
  intros Hdry. split.
  - now apply run_once_dry_no_post.
  - apply main_loop_no_post. intros w0. now apply run_once_dry_no_post.
Qed.

Lemma dry_run_never_posts_witness :
  no_post_between (Ex.world MemoryStore.empty)
    (snd (main_loop (Ex.env_up [Ex.post_sky; Ex.post_third]) Ex.cfg_dry 3
            (Ex.world MemoryStore.empty))).
Proof.
  apply (dry_run_never_posts (Ex.env_up [Ex.post_sky; Ex.post_third]) Ex.cfg_dry 3
           (Ex.world MemoryStore.empty)).
  reflexivity.
Defined.

(** X6. A cycle writes the records of at most one reply and removes no
    identifier or fingerprint: every identifier and fingerprint stored before
    is stored after, and each of the three containers is at most one entry
    longer than before. *)
Theorem cycle_adds_at_most_one_reply (E : Env) (cfg : AgentConfig) (w : World) :
  let d := file w in
  let d' := file (snd (run_once E cfg w)) in
  incl (replied_post_ids d) (replied_post_ids d')
  /\ incl (advice_fingerprints d) (advice_fingerprints d')
  /\ (List.length (replied_post_ids d') <= List.length (replied_post_ids d) + 1)%nat
  /\ (List.length (advice_fingerprints d') <= List.length (advice_fingerprints d) + 1)%nat
  /\ (List.length (comment_timestamps d') <= List.length (comment_timestamps d) + 1)%nat.
Proof.
  cbv zeta.
  pose proof (filter_length_le (MemoryStore.is_recent (clock E (clock_reads w)))
                (comment_timestamps (file w))) as Hpruned.
  destruct (run_once_file E cfg w) as [-> | (_ & _ & p & reply & t & _ & ->)];
    cbn [after_count file MemoryStore.comment_count_last_hour snd
         MemoryStore.record_comment_now MemoryStore.add_advice MemoryStore.mark_replied
         replied_post_ids advice_fingerprints comment_timestamps].
  - repeat split; try apply incl_refl; lia.
  - repeat split.
    + apply incl_insert.
    + apply incl_insert.
    + apply length_insert.
    + apply length_insert.
    + rewrite length_app. cbn [List.length]. lia.
Qed.

Lemma run_once_keeps_budget (E : Env) (cfg : AgentConfig) (w : World) :
  Z.of_nat (List.length (comment_timestamps (file w))) <= max_comments_per_hour cfg ->
  Z.of_nat (List.length (comment_timestamps (file (snd (run_once E cfg w)))))
  <= max_comments_per_hour cfg.
Proof.
  intros Hfits.
  pose proof (filter_length_le (MemoryStore.is_recent (clock E (clock_reads w)))
                (comment_timestamps (file w))) as Hpruned.
  destruct (run_once_file E cfg w) as [-> | (Hbelow & _ & p & reply & t & _ & ->)];
    cbn [after_count file MemoryStore.comment_count_last_hour fst snd
         MemoryStore.record_comment_now MemoryStore.add_advice MemoryStore.mark_replied
         comment_timestamps] in *.
  - lia.
  - rewrite length_app. cbn [List.length]. lia.
Qed.

(** X7. The hourly budget is an invariant of the state file: when it holds
    at most [max_comments_per_hour] timestamps, it still does after a cycle,
    and after any number of cycles of the continuous loop, whatever the
    clock, the network and the feed do. *)
Theorem rate_budget_invariant (E : Env) (cfg : AgentConfig) (cycles : nat) (w : World) :
  Z.of_nat (List.length (comment_timestamps (file w))) <= max_comments_per_hour cfg ->
  Z.of_nat (List.length (comment_timestamps (file (snd (run_once E cfg w)))))
  <= max_comments_per_hour cfg
  /\ Z.of_nat (List.length (comment_timestamps (file (snd (main_loop E cfg cycles w)))))
     <= max_comments_per_hour cfg.
Proof.
  intros Hfits. split.
  - now apply run_once_keeps_budget.
  - apply (main_loop_file_invariant E cfg
             (fun d => Z.of_nat (List.length (comment_timestamps d))
                       <= max_comments_per_hour cfg)); [| exact Hfits].
    intros w0. apply run_once_keeps_budget.
Qed.

Lemma rate_budget_invariant_witness :
  Z.of_nat (List.length (comment_timestamps
      (file (snd (main_loop (Ex.env_up [Ex.post_sky; Ex.post_tides; Ex.post_third])
                    Ex.cfg 5 (Ex.world Ex.doc_busy)))))) <= 4.
Proof.
  apply (rate_budget_invariant (Ex.env_up [Ex.post_sky; Ex.post_tides; Ex.post_third])
           Ex.cfg 5 (Ex.world Ex.doc_busy)).
  vm_compute. discriminate.
Defined.

(** X8. A cycle that ends with an exception has written no record: the state
    file is the pruned one, so a post whose comment could not be sent is not
    marked replied and its fingerprint and timestamp are not recorded. *)
Theorem failed_cycle_records_nothing
        (E : Env) (cfg : AgentConfig) (w w' : World) (e : exn) :
  run_once E cfg w = (Raise e, w') ->
  file w' = file (after_count E w)
  /\ replied_post_ids (file w') = replied_post_ids (file w)
  /\ advice_fingerprints (file w') = advice_fingerprints (file w).
Proof.
  intros Hrun.
  assert (Hfile : file w' = file (after_count E w)).
  { destruct (run_once_file E cfg w) as [Hsame | (_ & Hok & _)].
    - now rewrite Hrun in Hsame.
    - rewrite Hrun in Hok. discriminate. }
  rewrite Hfile. repeat split.
Qed.

Lemma failed_cycle_records_nothing_witness :
  let outcome := run_once (Ex2.env_read_only [Ex.post_sky]) Ex.cfg
                          (Ex.world MemoryStore.empty) in
  fst outcome
  = Raise (Exn RuntimeError
               (lit "Moltbook request failed after retries: HTTP 403: forbidden"))
  /\ file (snd outcome) = MemoryStore.empty.
Proof.
  cbv zeta.
  assert (Hrun : exists w',
             run_once (Ex2.env_read_only [Ex.post_sky]) Ex.cfg (Ex.world MemoryStore.empty)
             = (Raise (Exn RuntimeError
                         (lit "Moltbook request failed after retries: HTTP 403: forbidden")),
                w')).
  { eexists. vm_compute. reflexivity. }
  destruct Hrun as [w' Hrun].
  destruct (failed_cycle_records_nothing (Ex2.env_read_only [Ex.post_sky]) Ex.cfg
              (Ex.world MemoryStore.empty) w' _ Hrun) as (Hfile & _).
  rewrite Hrun. cbn [fst snd]. split; [reflexivity |].
  rewrite Hfile. reflexivity.
Defined.

Lemma run_once_keeps_tidy (E : Env) (cfg : AgentConfig) (w : World) :
  tidy (file w) -> tidy (file (snd (run_once E cfg w))).
Proof.
  intros Htidy.
  assert (Hpruned : tidy (file (after_count E w))) by exact Htidy.
  destruct (run_once_file E cfg w) as [-> | (_ & _ & p & reply & t & _ & ->)].
  - exact Hpruned.
  - exact (tidy_add_advice _ _ (tidy_mark_replied _ _ Hpruned)).
Qed.

(** X9. No identifier and no fingerprint is ever stored twice: the document
    written on first run has no duplicates, and a state file without
    duplicates has none after a cycle, nor after any number of cycles of the
    continuous loop. *)
Theorem store_never_duplicates (E : Env) (cfg : AgentConfig) (cycles : nat) (w : World) :
  tidy (MemoryStore.init None)
  /\ (tidy (file w) ->
      tidy (file (snd (run_once E cfg w)))
      /\ tidy (file (snd (main_loop E cfg cycles w)))).
Proof.
  split; [split; constructor |].
  intros Htidy. split.
  - now apply run_once_keeps_tidy.
  - apply (main_loop_file_invariant E cfg tidy); [| exact Htidy].
    intros w0. apply run_once_keeps_tidy.
Qed.

Lemma store_never_duplicates_witness :
  tidy (file (snd (main_loop (Ex.env_up [Ex.post_sky; Ex.post_tides; Ex.post_third])
                     Ex.cfg 4 (Ex.world Ex.doc_replied_p1)))).
Proof.
  apply (store_never_duplicates (Ex.env_up [Ex.post_sky; Ex.post_tides; Ex.post_third])
           Ex.cfg 4 (Ex.world Ex.doc_replied_p1)).
  split; [repeat constructor; intros [] | constructor].
Defined.

(** X10. Every request the loop over the feed sends is the comment for a
    post of that feed which has a non-empty identifier, is not marked
    replied, and for which the decision engine returned the text sent; and it
    is sent only outside dry-run. *)
Theorem scan_requests_are_fresh_comments
        (E : Env) (cfg : AgentConfig) (posts : list Post) (w : World) :
  exists evs,
    trace (snd (scan E cfg posts w)) = trace w ++ evs
    /\ forall r : Request,
        In (EvRequest r) evs ->
        dry_run cfg = false
        /\ exists p reply,
            In p posts
            /\ truthy (post_id_of p) = true
            /\ MemoryStore.has_replied (post_id_of p) (file w) = false
            /\ decide_reply p (file w) = Some reply
            /\ r = comment_request cfg (post_id_of p) reply.
Proof.
  destruct (scan_cases E cfg posts w)
    as [[_ Hscan] | (skipped & p & rest & reply & -> & _ & Hy & Hscan)]; rewrite Hscan.
  - exists []. split; [cbn; now rewrite app_nil_r | intros r []].
  - destruct (act_cases E cfg (post_id_of p) reply w) as (evs & calls & Hcycle & Hreq & Hact).
    exists evs. split.
    + destruct Hact as [-> | [e ->]]; reflexivity.
    + intros r Hin.
      rewrite Forall_forall in Hcycle, Hreq.
      pose proof (Hreq _ Hin eq_refl) as Hr. injection Hr as ->.
      split.
      * destruct (Hcycle _ Hin) as [Hnot | [Hlive _]]; [discriminate | exact Hlive].
      * destruct Hy as (Hid & Hfresh & Hreply).
        exists p, reply. repeat split; try assumption.
        apply in_or_app. right. now left.
Qed.

(* ================================================================== *)
(** * Further properties of the gateway *)

Section Reach.

Variable E : Env.
Variable cfg : AgentConfig.

Lemma check_url_ok_allowed (url : str) (w w' : World) :
  _check_url E url w = (Ok tt, w') -> allowed E url.
Proof.
  unfold _check_url, allowed.
  destruct (urlparse E url) as [parsed | e]; [| discriminate].
  destruct (str_eqb (scheme parsed) allowed_scheme) eqn:Hs;
    destruct (str_eqb (netloc parsed) allowed_netloc) eqn:Hn; cbn; try discriminate.
  intros _. exists parsed. apply str_eqb_eq in Hs. apply str_eqb_eq in Hn. now repeat split.
Qed.

Lemma request_untouched_or_allowed (method path : str)
      (payload : option (list (str * str))) (w : World) :
  (exists e, _request E cfg method path payload w = (Raise e, w))
  \/ allowed E (request_url cfg path).
Proof.
  pose proof (check_url_cases E (request_url cfg path) w) as Hw.
  destruct (_check_url E (request_url cfg path) w) as [[[] | e] w0] eqn:Hcheck;
    cbn [snd] in Hw; subst w0.
  - right. exact (check_url_ok_allowed _ _ _ Hcheck).
  - left. exists e. unfold _request. now apply bind_raise.
Qed.


(** X11. The network is reached only for a URL on the allowlist: a call of
    [_request] whose URL the allowlist does not let through (the parser
    raised, or the scheme or the network location differs) ends with an
    exception and leaves the world as it was. *)
Theorem request_reaches_network_only_if_allowed
        (method path : str) (payload : option (list (str * str))) (w : World) :
  ~ allowed E (request_url cfg path) ->
  exists e, _request E cfg method path payload w = (Raise e, w).
Proof.
  intros Hnot.
  destruct (request_untouched_or_allowed method path payload w) as [H | H];
    [exact H | contradiction].
Qed.


End Reach.

Lemma request_reaches_network_only_if_allowed_witness :
  exists e,
    _request Ex.env_down Ex.cfg_plain_http (lit "POST") (comment_path (lit "p1"))
             (Some [(lit "content", reply_default)]) (Ex.world MemoryStore.empty)
    = (Raise e, Ex.world MemoryStore.empty).
Proof.
  apply (request_reaches_network_only_if_allowed Ex.env_down Ex.cfg_plain_http).
  intros (parsed & Hparse & Hscheme & _).
  vm_compute in Hparse. injection Hparse as <-. discriminate.
Defined.


Lemma rstrip_snoc_slash (s : str) :
  rstrip_by is_slash (s ++ lit "/") = rstrip_by is_slash s.
Proof.
  unfold rstrip_by. change (lit "/") with [47%N]. now rewrite rev_unit.
Qed.

Lemma rstrip_no_trailing (p : char -> bool) (s : str) (c : char) (rest : str) :
  rev (rstrip_by p s) = c :: rest -> p c = false.
Proof.
  unfold rstrip_by. rewrite rev_involutive.
  induction (rev s) as [| a l IH]; cbn [dropwhile]; [discriminate |].
  destruct (p a) eqn:Hpa; [exact IH |].
  intros H. injection H as <- _. exact Hpa.
Qed.

Lemma lstrip_no_leading (p : char -> bool) (s : str) (c : char) (rest : str) :
  lstrip_by p s = c :: rest -> p c = false.
Proof.
  unfold lstrip_by.
  induction s as [| a l IH]; cbn [dropwhile]; [discriminate |].
  destruct (p a) eqn:Hpa; [exact IH |].
  intros H. injection H as <- _. exact Hpa.
Qed.

Lemma dropwhile_split (p : char -> bool) (s : str) :
  exists dropped,
    s = dropped ++ dropwhile p s /\ Forall (fun c => p c = true) dropped.
Proof.
  induction s as [| a l IH]; cbn [dropwhile].
  - exists []. split; [reflexivity | constructor].
  - destruct (p a) eqn:Hpa.
    + destruct IH as (dropped & Hl & Hall).
      exists (a :: dropped). split; [cbn [app]; now rewrite <- Hl | now constructor].
    + exists []. split; [reflexivity | constructor].
Qed.

Lemma rstrip_split (p : char -> bool) (s : str) :
  exists dropped,
    s = rstrip_by p s ++ dropped /\ Forall (fun c => p c = true) dropped.
Proof.
  destruct (dropwhile_split p (rev s)) as (dropped & Hs & Hall).
  exists (rev dropped). split.
  - unfold rstrip_by. rewrite <- rev_app_distr, <- Hs. now rewrite rev_involutive.
  - now apply Forall_rev.
Qed.

Lemma is_slash_true (c : char) : is_slash c = true -> c = 47%N.
Proof. unfold is_slash. apply N.eqb_eq. Qed.

Lemma is_slash_false (c : char) : is_slash c = false -> c <> 47%N.
Proof. unfold is_slash. apply N.eqb_neq. Qed.

(** X13. The URL of a request joins the base address and the path with
    exactly one slash. [api_base] is a [base] that does not end with a
    slash, followed by slashes only; the path is slashes only, followed by a
    [rest] that does not start with one; and the URL is [base], one slash
    and [rest]. Hence one more slash at the end of [api_base] gives the same
    URL, and so does one more slash at the start of the path. *)
Theorem request_url_joins_with_one_slash (cfg cfg' : AgentConfig) (path : str) :
  (exists base trailing leading rest : str,
      api_base cfg = base ++ trailing
      /\ path = leading ++ rest
      /\ Forall (fun c => c = 47%N) trailing
      /\ Forall (fun c => c = 47%N) leading
      /\ (forall c before, rev base = c :: before -> c <> 47%N)
      /\ (forall c after, rest = c :: after -> c <> 47%N)
      /\ request_url cfg path = base ++ [47%N] ++ rest)
  /\ (api_base cfg' = api_base cfg ++ [47%N] ->
      request_url cfg' path = request_url cfg path)
  /\ request_url cfg ([47%N] ++ path) = request_url cfg path.
Proof.
  split; [| split].
  - destruct (rstrip_split is_slash (api_base cfg)) as (trailing & Hbase & Htrailing).
    destruct (dropwhile_split is_slash path) as (leading & Hpath & Hleading).
    exists (rstrip_by is_slash (api_base cfg)), trailing, leading,
           (lstrip_by is_slash path).
    split; [exact Hbase | split; [exact Hpath |]].
    split; [| split; [| split; [| split]]].
    + eapply Forall_impl; [| exact Htrailing]. apply is_slash_true.
    + eapply Forall_impl; [| exact Hleading]. apply is_slash_true.
    + intros c before Hlast. apply is_slash_false.
      now apply (rstrip_no_trailing is_slash (api_base cfg) c before).
    + intros c after Hfirst. apply is_slash_false.
      now apply (lstrip_no_leading is_slash path c after).
    + reflexivity.
  - intros Hbase. unfold request_url. rewrite Hbase.
    change (api_base cfg ++ [47%N]) with (api_base cfg ++ lit "/").
    now rewrite (rstrip_snoc_slash (api_base cfg)).
  - reflexivity.
Qed.

Lemma request_url_joins_with_one_slash_witness :
  request_url
    {| name := lit "3mrAgent"; submolt := lit "general";
       api_base := lit "https://www.moltbook.com/api/v1/";
       dry_run := false; max_comments_per_hour := 4;
       min_loop_seconds := 45; max_loop_seconds := 110;
       fetch_limit := 10; request_timeout_seconds := 20; max_retries := 3 |}
    (lit "posts")
  = lit "https://www.moltbook.com/api/v1/posts".
Proof.
  transitivity (request_url Ex.cfg (lit "posts")); [| reflexivity].
  destruct (request_url_joins_with_one_slash Ex.cfg
             {| name := lit "3mrAgent"; submolt := lit "general";
                api_base := lit "https://www.moltbook.com/api/v1/";
                dry_run := false; max_comments_per_hour := 4;
                min_loop_seconds := 45; max_loop_seconds := 110;
                fetch_limit := 10; request_timeout_seconds := 20; max_retries := 3 |}
             (lit "posts")) as (_ & Hbase & _).
  apply Hbase. reflexivity.
Defined.

(* ================================================================== *)
(** * Further properties of the decision engine *)

Lemma has_advice_incl (f : str) (m m' : Doc) :
  incl (advice_fingerprints m) (advice_fingerprints m') ->
  MemoryStore.has_advice f m = true -> MemoryStore.has_advice f m' = true.
Proof.
  unfold MemoryStore.has_advice. rewrite !mem_In. intros Hincl Hin. now apply Hincl.
Qed.

(** X15. The decision reads the post's title and content and the recorded
    fingerprints, nothing else: two posts with the same title and content get
    the same decision against two stores holding the same fingerprints,
    whatever their identifiers, replied sets and timestamps. Recording more
    fingerprints never revives a post: no candidate stays no candidate. *)
Theorem decide_reply_reads_text_and_fingerprints (post post' : Post) (m m' : Doc) :
  (post_title post = post_title post' ->
   post_content post = post_content post' ->
   (forall f, MemoryStore.has_advice f m = MemoryStore.has_advice f m') ->
   decide_reply post m = decide_reply post' m')
  /\ (incl (advice_fingerprints m) (advice_fingerprints m') ->
      decide_reply post m = None -> decide_reply post m' = None).
Proof.
  split.
  - intros Ht Hc Hsame. unfold decide_reply, combined_text.
    rewrite Ht, Hc, Hsame. reflexivity.
  - intros Hincl. unfold decide_reply.
    destruct (List.length (combined_text post) <? 30)%nat; [reflexivity |].
    destruct (negb (contains (lit "?") (combined_text post))
              && negb (contains (lit "debate") (lower (combined_text post)))
              && negb (contains (lit "why") (lower (combined_text post))));
      [reflexivity |].
    destruct (MemoryStore.has_advice
                (short_fingerprint (select_reply (combined_text post))) m) eqn:Hseen;
      [| discriminate].
    intros _. now rewrite (has_advice_incl _ m m' Hincl Hseen).
Qed.

Lemma decide_reply_reads_text_and_fingerprints_witness :
  decide_reply Ex.post_sky Ex.doc_replied_p1
  = decide_reply {| post_id_field := None;
                    post_title := post_title Ex.post_sky;
                    post_content := post_content Ex.post_sky |} MemoryStore.empty
  /\ decide_reply Ex.post_third
       (MemoryStore.add_advice (lit "another") Ex.doc_both_templates) = None.
Proof.
  split.
  - apply (proj1 (decide_reply_reads_text_and_fingerprints Ex.post_sky
             {| post_id_field := None;
                post_title := post_title Ex.post_sky;
                post_content := post_content Ex.post_sky |}
             Ex.doc_replied_p1 MemoryStore.empty)); reflexivity.
  - apply (proj2 (decide_reply_reads_text_and_fingerprints Ex.post_third Ex.post_third
             Ex.doc_both_templates
             (MemoryStore.add_advice (lit "another") Ex.doc_both_templates))).
    + exact (incl_insert (lit "another") (advice_fingerprints Ex.doc_both_templates)).
    + vm_compute. reflexivity.
Defined.

(* ================================================================== *)
(** * Further properties of the fingerprint *)

Lemma lower_char_space (c : char) : isspace c = true -> lower_char c = c.
Proof.
  intros Hspace. unfold lower_char.
  destruct ((65 <=? c) && (c <=? 90))%N eqn:Hupper; [| reflexivity].
  exfalso. apply andb_true_iff in Hupper. destruct Hupper as [Hlo Hhi].
  apply N.leb_le in Hlo. apply N.leb_le in Hhi.
  unfold isspace in Hspace.
  repeat (apply orb_true_iff in Hspace; destruct Hspace as [Hspace | Hspace]);
    try (apply andb_true_iff in Hspace; destruct Hspace as [H1 H2];
         apply N.leb_le in H1; apply N.leb_le in H2);
    try apply N.eqb_eq in Hspace; lia.
Qed.

Lemma split_from_space (cur : str) (c : char) (s : str) :
  isspace c = true ->
  split_from cur (c :: s) = split_from cur [] ++ split_from [] s.
Proof.
  intros Hc. cbn [split_from]. rewrite Hc. destruct cur; reflexivity.
Qed.

(** [split] cuts at a whitespace character. *)
Lemma split_from_app_space (c : char) (b : str) (a : str) :
  isspace c = true ->
  forall cur, split_from cur (a ++ c :: b) = split_from cur a ++ split_from [] b.
Proof.
  intros Hc. induction a as [| x a IH]; intros cur.
  - now apply split_from_space.
  - cbn [app split_from]. destruct (isspace x).
    + destruct cur; rewrite IH; reflexivity.
    + apply IH.
Qed.

Lemma split_app_space (a b : str) (c : char) :
  isspace c = true -> split (a ++ c :: b) = split a ++ split b.
Proof. intros Hc. unfold split. now apply split_from_app_space. Qed.

Lemma lower_app_space (a b : str) (c : char) :
  isspace c = true -> lower (a ++ c :: b) = lower a ++ c :: lower b.
Proof.
  intros Hc. unfold lower. rewrite map_app. cbn [map]. now rewrite lower_char_space.
Qed.

Lemma words_app_space (a b : str) (c : char) :
  isspace c = true -> split (lower (a ++ c :: b)) = split (lower a) ++ split (lower b).
Proof. intros Hc. rewrite lower_app_space by exact Hc. now apply split_app_space. Qed.

Lemma words_cons_space (t : str) (c : char) :
  isspace c = true -> split (lower (c :: t)) = split (lower t).
Proof. intros Hc. exact (words_app_space [] t c Hc). Qed.

Lemma ascii_whitespace_isspace (c : char) : In c ascii_whitespace -> isspace c = true.
Proof.
  unfold ascii_whitespace. cbn [In]. intros H.
  repeat (destruct H as [<- | H]; [reflexivity |]). contradiction.
Qed.

Lemma visible_not_space (c : char) : (32 < c < 128)%N -> isspace c = false.
Proof.
  intros Hc. unfold isspace.
  replace (c <=? 13)%N with false by (symmetry; apply N.leb_gt; lia).
  replace (c <=? 32)%N with false by (symmetry; apply N.leb_gt; lia).
  replace (c =? 133)%N with false by (symmetry; apply N.eqb_neq; lia).
  replace (c =? 160)%N with false by (symmetry; apply N.eqb_neq; lia).
  replace (c =? 5760)%N with false by (symmetry; apply N.eqb_neq; lia).
  replace (8192 <=? c)%N with false by (symmetry; apply N.leb_gt; lia).
  replace (c =? 8232)%N with false by (symmetry; apply N.eqb_neq; lia).
  replace (c =? 8233)%N with false by (symmetry; apply N.eqb_neq; lia).
  replace (c =? 8239)%N with false by (symmetry; apply N.eqb_neq; lia).
  replace (c =? 8287)%N with false by (symmetry; apply N.eqb_neq; lia).
  replace (c =? 12288)%N with false by (symmetry; apply N.eqb_neq; lia).
  now rewrite !andb_false_r.
Qed.

Lemma lower_char_capital (c : char) : (65 <= c <= 90)%N -> lower_char c = (c + 32)%N.
Proof.
  intros Hc. unfold lower_char.
  replace (65 <=? c)%N with true by (symmetry; apply N.leb_le; lia).
  now replace (c <=? 90)%N with true by (symmetry; apply N.leb_le; lia).
Qed.

Lemma lower_char_other (c : char) : ~ (65 <= c <= 90)%N -> lower_char c = c.
Proof.
  intros Hc. unfold lower_char.
  destruct ((65 <=? c) && (c <=? 90))%N eqn:Hupper; [| reflexivity].
  exfalso. apply Hc. apply andb_true_iff in Hupper. destruct Hupper as [Hlo Hhi].
  apply N.leb_le in Hlo. apply N.leb_le in Hhi. lia.
Qed.

Lemma lower_plain_word (s : str) : plain_word s -> lower s = s.
Proof.
  intros [_ Hall]. unfold lower.
  induction Hall as [| c l [_ Hc] _ IH]; [reflexivity |].
  cbn [map]. now rewrite lower_char_other, IH.
Qed.

(** A run without whitespace is one part of [split]. *)
Lemma split_from_word (s : str) :
  Forall (fun c => isspace c = false) s ->
  forall cur, cur ++ s <> [] -> split_from cur s = [rev cur ++ s].
Proof.
  induction 1 as [| c l Hc _ IH]; intros cur Hne.
  - rewrite app_nil_r in *. cbn [split_from]. now destruct cur.
  - cbn [split_from]. rewrite Hc. rewrite IH by discriminate.
    cbn [rev]. now rewrite <- app_assoc.
Qed.

Lemma split_plain_word (s : str) : plain_word s -> split s = [s].
Proof.
  intros [Hne Hall]. unfold split.
  apply (split_from_word s); [| exact Hne].
  eapply Forall_impl; [| exact Hall]. intros c [Hc _]. now apply visible_not_space.
Qed.

(** X16. On texts of ASCII characters the fingerprint has at most 160
    characters, does not depend on the case of a letter (a capital letter
    and its small letter, 32 code points further, give the same
    fingerprint) and does not depend on the layout of whitespace: which of
    the ASCII whitespace characters separates two parts, whether one or two
    stand there, and whitespace at either end make no difference. Two words
    of visible ASCII characters without capitals, separated by one such
    whitespace character, give the two words joined by one space when that
    has at most 160 characters. *)
Theorem short_fingerprint_normalises (t a b : str) (c c' u : char) :
  ascii_text t -> ascii_text a -> ascii_text b ->
  (List.length (short_fingerprint t) <= 160)%nat
  /\ ((65 <= u <= 90)%N ->
      short_fingerprint (a ++ u :: b) = short_fingerprint (a ++ (u + 32)%N :: b))
  /\ (In c ascii_whitespace -> In c' ascii_whitespace ->
      short_fingerprint (a ++ c :: b) = short_fingerprint (a ++ c' :: b)
      /\ short_fingerprint (a ++ c :: c' :: b) = short_fingerprint (a ++ c :: b)
      /\ short_fingerprint (c :: t) = short_fingerprint t
      /\ short_fingerprint (t ++ [c]) = short_fingerprint t)
  /\ (In c ascii_whitespace -> plain_word a -> plain_word b ->
      (List.length a + 1 + List.length b <= 160)%nat ->
      short_fingerprint (a ++ c :: b) = a ++ 32%N :: b).
Proof.
  intros _ _ _. unfold short_fingerprint. split; [| split; [| split]].
  - apply firstn_le_length.
  - intros Hu. do 3 f_equal. unfold lower. rewrite !map_app. cbn [map].
    rewrite (lower_char_capital u Hu).
    rewrite (lower_char_other (u + 32)%N) by lia. reflexivity.
  - intros Hc Hc'.
    apply ascii_whitespace_isspace in Hc. apply ascii_whitespace_isspace in Hc'.
    repeat split.
    + now rewrite !words_app_space.
    + rewrite (words_app_space a (c' :: b) c Hc), (words_app_space a b c Hc).
      now rewrite (words_cons_space b c' Hc').
    + now rewrite (words_cons_space t c Hc).
    + rewrite (words_app_space t [] c Hc). cbn. now rewrite app_nil_r.
  - intros Hc Ha Hb Hshort. apply ascii_whitespace_isspace in Hc.
    rewrite (words_app_space a b c Hc).
    rewrite (lower_plain_word a Ha), (lower_plain_word b Hb).
    rewrite (split_plain_word a Ha), (split_plain_word b Hb).
    cbn [app join]. change (lit " ") with [32%N]. cbn [app].
    apply firstn_all2. rewrite length_app. cbn [List.length]. lia.
Qed.

Lemma short_fingerprint_normalises_witness :
  short_fingerprint (lit "  Why   NOT?" ++ [10%N]) = lit "why not?"
  /\ short_fingerprint (lit "why" ++ 10%N :: lit "not?") = lit "why not?".
Proof.
  assert (Hnewline : In 10%N ascii_whitespace) by (cbn; tauto).
  assert (Htab : In 9%N ascii_whitespace) by (cbn; tauto).
  destruct (short_fingerprint_normalises (lit "  Why   NOT?") (lit "why") (lit "not?")
              10%N 9%N 87%N)
    as (_ & _ & Hspace & Hjoin).
  - repeat constructor.
  - repeat constructor.
  - repeat constructor.
  - split.
    + destruct (Hspace Hnewline Htab) as (_ & _ & _ & Hend).
      transitivity (short_fingerprint (lit "  Why   NOT?")); [exact Hend | reflexivity].
    + apply (Hjoin Hnewline).
      * split; [discriminate |]. change (lit "why") with [119; 104; 121]%N.
        repeat (apply Forall_cons; [split; lia |]). apply Forall_nil.
      * split; [discriminate |]. change (lit "not?") with [110; 111; 116; 63]%N.
        repeat (apply Forall_cons; [split; lia |]). apply Forall_nil.
      * cbn. lia.
Defined.

(* ================================================================== *)
(** * Further properties of main *)

Section Modes.

Variable E : Env.
Variable cfg : AgentConfig.

Lemma main_loop_never_returns (cycles : nat) :
  forall (w : World) (status : Z), fst (main_loop E cfg cycles w) <> Ok (Some status).
Proof.
  induction cycles as [| cycles IH]; intros w status; [discriminate |].
  cbn [main_loop].
  destruct (run_once E cfg w) as [[[] | e] w1] eqn:Hone.
  2:{ rewrite (bind_raise _ _ _ _ _ Hone). discriminate. }
  rewrite (bind_ok _ _ _ _ _ Hone).
  destruct (randint E (min_loop_seconds cfg) (max_loop_seconds cfg) w1)
    as [[delay | e] w2] eqn:Hdelay.
  2:{ rewrite (bind_raise _ _ _ _ _ Hdelay). discriminate. }
  rewrite (bind_ok _ _ _ _ _ Hdelay).
  rewrite (bind_ok _ _ _ _ _ (print_spec _ _)).
  destruct (sleep_cases (PyInt delay) (with_network w2 [EvPrint (sleeping_line delay)] 0))
    as [Hsleep | [e Hsleep]].
  2:{ rewrite (bind_raise _ _ _ _ _ Hsleep). discriminate. }
  rewrite (bind_ok _ _ _ _ _ Hsleep).
  apply IH.
Qed.

(** X17. The two modes of [main]. In run-once mode a cycle that ends
    normally is followed by nothing: [main] returns 0 in the world the cycle
    left (no delay drawn, no sleep). In continuous mode [main] never returns
    a status, however many cycles it runs: it is still running, or an
    exception has left it. *)
Theorem main_modes (cycles : nat) (w : World) :
  (forall w', run_once E cfg (with_network w [EvPrint (starting_line cfg)] 0) = (Ok tt, w') ->
              main E cfg true cycles w = (Ok (Some 0), w'))
  /\ (forall status, fst (main E cfg false cycles w) <> Ok (Some status)).
Proof.
  split.
  - intros w' Hone. unfold main.
    rewrite (bind_ok _ _ _ _ _ (print_spec _ w)).
    now rewrite (bind_ok _ _ _ _ _ Hone).
  - intros status. unfold main.
    rewrite (bind_ok _ _ _ _ _ (print_spec _ w)).
    apply main_loop_never_returns.
Qed.

Lemma randint_in_range (a b : Z) (w : World) :
  a <= b ->
  exists delay,
    a <= delay <= b /\ randint E a b w = (Ok delay, after_draw w).
Proof.
  intros Hle. unfold randint.
  replace (b <? a) with false by (symmetry; apply Z.ltb_ge; lia).
  exists (a + rand E (rand_draws w) mod (b - a + 1)). split; [| reflexivity].
  pose proof (Z.mod_pos_bound (rand E (rand_draws w)) (b - a + 1)). lia.
Qed.

(** X18. Between two cycles. After a cycle that ends normally the loop
    draws the delay with [min_loop_seconds] and [max_loop_seconds] in this
    order. When the first is at most the second, the draw is a whole number
    of seconds within these bounds and its "Sleeping" line is printed; then
    a delay from 0 to 9223372036 is slept and the next cycle follows, a
    negative one makes [time.sleep] raise [ValueError] and a delay beyond
    9223372036 in either direction [OverflowError], and the loop ends
    there, the line printed and nothing slept. When the first bound exceeds
    the second, the draw itself raises [ValueError] and the loop ends
    after its first cycle with nothing printed. *)
Theorem inter_cycle_delay (cycles : nat) (w w1 : World) :
  run_once E cfg w = (Ok tt, w1) ->
  (min_loop_seconds cfg <= max_loop_seconds cfg ->
   exists delay,
     min_loop_seconds cfg <= delay <= max_loop_seconds cfg
     /\ (0 <= delay <= 9223372036 ->
         main_loop E cfg (S cycles) w
         = main_loop E cfg cycles
             (with_network (after_draw w1)
                [EvPrint (sleeping_line delay); EvSleep (PyInt delay)] 0))
     /\ (-9223372036 <= delay < 0 ->
         exists msg,
           main_loop E cfg (S cycles) w
           = (Raise (Exn ValueError msg),
              with_network (after_draw w1) [EvPrint (sleeping_line delay)] 0))
     /\ (delay < -9223372036 \/ 9223372036 < delay ->
         exists msg,
           main_loop E cfg (S cycles) w
           = (Raise (Exn OverflowError msg),
              with_network (after_draw w1) [EvPrint (sleeping_line delay)] 0)))
  /\ (max_loop_seconds cfg < min_loop_seconds cfg ->
      exists msg, main_loop E cfg (S cycles) w = (Raise (Exn ValueError msg), w1)).
Proof.
  intros Hone. split.
  - intros Hle.
    destruct (randint_in_range (min_loop_seconds cfg) (max_loop_seconds cfg) w1 Hle)
      as (delay & Hrange & Hdraw).
    exists delay. split; [exact Hrange |].
    cbn [main_loop].
    rewrite (bind_ok _ _ _ _ _ Hone), (bind_ok _ _ _ _ _ Hdraw).
    rewrite (bind_ok _ _ _ _ _ (print_spec _ _)).
    split; [| split].
    + intros Hfits.
      rewrite (bind_ok _ _ _ _ _ (sleep_int_spec _ _ Hfits)).
      now rewrite with_network_twice.
    + intros Hneg. eexists. apply bind_raise. unfold sleep.
      replace (delay <? -9223372036) with false by (symmetry; apply Z.ltb_ge; lia).
      replace (9223372036 <? delay) with false by (symmetry; apply Z.ltb_ge; lia).
      replace (delay <? 0) with true by (symmetry; apply Z.ltb_lt; lia).
      reflexivity.
    + intros Hfar. eexists. apply bind_raise. unfold sleep.
      replace ((delay <? -9223372036) || (9223372036 <? delay)) with true; [reflexivity |].
      symmetry. apply orb_true_iff.
      destruct Hfar; [left | right]; apply Z.ltb_lt; lia.
  - intros Hgt. eexists.
    cbn [main_loop]. rewrite (bind_ok _ _ _ _ _ Hone).
    apply bind_raise. unfold randint.
    now replace (max_loop_seconds cfg <? min_loop_seconds cfg) with true
      by (symmetry; apply Z.ltb_lt; lia).
Qed.

End Modes.

Lemma main_modes_witness :
  fst (main (Ex.env_up []) Ex.cfg true 0 (Ex.world MemoryStore.empty)) = Ok (Some 0).
Proof.
  assert (Hone : exists w',
             run_once (Ex.env_up []) Ex.cfg
                      (with_network (Ex.world MemoryStore.empty)
                                    [EvPrint (starting_line Ex.cfg)] 0)
             = (Ok tt, w')).
  { eexists. vm_compute. reflexivity. }
  destruct Hone as [w' Hone].
  now rewrite (proj1 (main_modes (Ex.env_up []) Ex.cfg 0 (Ex.world MemoryStore.empty))
                 w' Hone).
Defined.

Lemma inter_cycle_delay_witness :
  (exists delay,
     45 <= delay <= 110
     /\ In (EvSleep (PyInt delay))
           (trace (snd (main_loop (Ex.env_up []) Ex.cfg 1 (Ex.world MemoryStore.empty)))))
  /\ (exists msg w',
        main_loop (Ex.env_up []) Ex2.cfg_negative_pause 5 (Ex.world MemoryStore.empty)
        = (Raise (Exn ValueError msg), w')
        /\ Forall (fun ev => is_sleep ev = false) (trace w')).
Proof.
  split.
  - assert (Hone : exists w1,
               run_once (Ex.env_up []) Ex.cfg (Ex.world MemoryStore.empty) = (Ok tt, w1)).
    { eexists. vm_compute. reflexivity. }
    destruct Hone as [w1 Hone].
    destruct (inter_cycle_delay (Ex.env_up []) Ex.cfg 0 _ _ Hone) as (Hin & _).
    destruct Hin as (delay & Hrange & Hsleeps & _); [vm_compute; discriminate |].
    change (min_loop_seconds Ex.cfg) with 45 in Hrange.
    change (max_loop_seconds Ex.cfg) with 110 in Hrange.
    exists delay. split; [exact Hrange |].
    rewrite Hsleeps by lia. cbn [main_loop ret snd with_network trace].
    apply in_or_app. right. right. now left.
  - assert (Hone : exists w1,
               run_once (Ex.env_up []) Ex2.cfg_negative_pause (Ex.world MemoryStore.empty)
               = (Ok tt, w1)
               /\ Forall (fun ev => is_sleep ev = false) (trace w1)).
    { eexists. split; [vm_compute; reflexivity |]. vm_compute. repeat constructor. }
    destruct Hone as (w1 & Hone & Hquiet).
    destruct (inter_cycle_delay (Ex.env_up []) Ex2.cfg_negative_pause 4 _ _ Hone)
      as (Hin & _).
    destruct Hin as (delay & Hrange & _ & Hneg & _); [vm_compute; discriminate |].
    change (min_loop_seconds Ex2.cfg_negative_pause) with (-5) in Hrange.
    change (max_loop_seconds Ex2.cfg_negative_pause) with (-1) in Hrange.
    destruct Hneg as [msg Hloop]; [lia |].
    exists msg. eexists. split; [exact Hloop |].
    cbn [with_network trace after_draw].
    apply Forall_app. split; [exact Hquiet | repeat constructor].
Defined.

(* ================================================================== *)
(** * Start-up *)

Import Startup.

Lemma load_config_inr (environ : Environ) (path : str)
      (file : option (result ConfigData)) (config : AgentConfig) :
  load_config environ path file = inr config ->
  exists data,
    file = Some (Ok data)
    /\ cd_agent_name data = Some (VStr (lit "3mrAgent"))
    /\ name config = lit "3mrAgent"
    /\ dry_run config
       = _env_bool environ (lit "DRY_RUN") (get_or (cd_dry_run data) true)
    /\ max_comments_per_hour config = get_or (cd_max_comments_per_hour data) 4.
Proof.
  unfold load_config.
  destruct file as [[data | e] |]; try discriminate.
  destruct (cd_agent_name data) as [[agent_name | | |] |] eqn:Hname; try discriminate.
  destruct (str_eqb agent_name (lit "3mrAgent")) eqn:Heq; [| discriminate].
  apply str_eqb_eq in Heq. subst agent_name.
  destruct (cd_submolt data) as [board |]; [| discriminate].
  intros H. injection H as <-. exists data. now repeat split.
Qed.

Lemma configure_inr (m : Machine) (config : AgentConfig) (printed : list Event) :
  configure m = inr (config, printed) ->
  load_config (environ m) (config_path m) (config_file m) = inr config
  /\ Forall (fun ev => is_post_request ev = false) printed.
Proof.
  unfold configure.
  destruct (load_config (environ m) (config_path m) (config_file m))
    as [[msg | key | e] | config0]; try discriminate.
  unfold ensure_env.
  destruct (environ m (lit "MOLTBOOK_API_KEY")) as [api_key |]; [| discriminate].
  destruct (negb (truthy api_key)); [discriminate |].
  intros H. injection H as <- <-. split; [reflexivity |].
  destruct (unset (environ m) (lit "OPENAI_API_KEY")); repeat constructor.
Qed.

(** X19. A configuration error ends the process with status 2 before the
    store or the client exists: when the configuration file is missing, when
    its ["agent_name"] is anything but the string "3mrAgent", or when the
    configuration loads but [MOLTBOOK_API_KEY] is unset or empty, [main]
    prints one "Configuration error" line and returns 2; the state file is
    left as it was (not even created) and nothing is sent. *)
Theorem configuration_errors_exit_2 (E : Env) (m : Machine) (once : bool) (cycles : nat) :
  let ends_with msg :=
    main_process E m once cycles
    = {| outcome := Exit 2; state_file_after := state_file m;
         events := [EvPrint (configuration_error_line msg)] |} in
  (config_file m = None -> ends_with (lit "Missing config file: " ++ config_path m))
  /\ (forall data,
         config_file m = Some (Ok data) ->
         cd_agent_name data <> Some (VStr (lit "3mrAgent")) ->
         ends_with agent_name_error)
  /\ (forall config,
         load_config (environ m) (config_path m) (config_file m) = inr config ->
         unset (environ m) (lit "MOLTBOOK_API_KEY") = true ->
         ends_with missing_key_error).
Proof.
  cbv zeta. unfold main_process, configure. split; [| split].
  - intros Hfile. unfold load_config. now rewrite Hfile.
  - intros data Hfile Hname. unfold load_config. rewrite Hfile.
    destruct (cd_agent_name data) as [[agent_name | | |] |]; try reflexivity.
    destruct (str_eqb agent_name (lit "3mrAgent")) eqn:Heq; [| reflexivity].
    apply str_eqb_eq in Heq. subst agent_name. contradiction.
  - intros config Hload Hunset. rewrite Hload. unfold ensure_env.
    unfold unset in Hunset.
    destruct (environ m (lit "MOLTBOOK_API_KEY")) as [api_key |]; [| reflexivity].
    now rewrite Hunset.
Qed.

Lemma configuration_errors_exit_2_witness :
  outcome (main_process Ex.env_down machine_wrong_name false 3) = Exit 2
  /\ outcome (main_process Ex.env_down machine_empty_key true 0) = Exit 2.
Proof.
  split.
  - rewrite (proj1 (proj2 (configuration_errors_exit_2 Ex.env_down machine_wrong_name
                             false 3))
               (config_named (VStr (lit "3mragent")) (Some (lit "general"))) eq_refl);
      [reflexivity | discriminate].
  - rewrite (proj2 (proj2 (configuration_errors_exit_2 Ex.env_down machine_empty_key
                             true 0))
               _ eq_refl); reflexivity.
Defined.

(** X20. What a loaded configuration guarantees: its name is exactly
    "3mrAgent"; when [DRY_RUN] is set in the environment, [dry_run] is
    decided by it alone (on for "1", "true", "yes", "on" in any letter case,
    off for every other value, the empty one included) whatever the file
    says; when it is not set, [dry_run] is the file's value, and on when the
    file has none. *)
Theorem loaded_configuration (environ : Environ) (path : str)
        (file : option (result ConfigData)) (config : AgentConfig) :
  load_config environ path file = inr config ->
  exists data,
    file = Some (Ok data)
    /\ name config = lit "3mrAgent"
    /\ (forall val, environ (lit "DRY_RUN") = Some val ->
                    dry_run config
                    = mem (lower val) [lit "1"; lit "true"; lit "yes"; lit "on"])
    /\ (environ (lit "DRY_RUN") = None ->
        dry_run config = match cd_dry_run data with Some b => b | None => true end).
Proof.
  intros Hload.
  destruct (load_config_inr _ _ _ _ Hload) as (data & Hfile & _ & Hname & Hdry & _).
  exists data. split; [exact Hfile | split; [exact Hname | split]].
  - intros val Hval. rewrite Hdry. unfold _env_bool. now rewrite Hval.
  - intros Hnone. rewrite Hdry. unfold _env_bool, get_or. now rewrite Hnone.
Qed.

Lemma loaded_configuration_witness :
  (exists config,
      load_config (environ_of [(lit "DRY_RUN", lit "No")]) (lit "config.json")
                  (Some (Ok minimal_config)) = inr config
      /\ dry_run config = false)
  /\ (exists config,
         load_config (environ_of []) (lit "config.json") (Some (Ok minimal_config))
         = inr config
         /\ dry_run config = true).
Proof.
  split.
  - eexists. split; [reflexivity |].
    destruct (loaded_configuration (environ_of [(lit "DRY_RUN", lit "No")])
                (lit "config.json") (Some (Ok minimal_config)) _ eq_refl)
      as (data & _ & _ & Hset & _).
    now rewrite (Hset (lit "No") eq_refl).
  - eexists. split; [reflexivity |].
    destruct (loaded_configuration (environ_of []) (lit "config.json")
                (Some (Ok minimal_config)) _ eq_refl)
      as (data & Hfile & _ & _ & Hunset).
    injection Hfile as <-. now rewrite (Hunset eq_refl).
Defined.

(** X21. Start-up failures that are not [ConfigError] are not turned into
    status 2: with the right ["agent_name"] but no ["submolt"] key the
    [KeyError] leaves [main], and so does whatever [json.load] raises on the
    configuration file; in both cases nothing is printed and the state file
    is left as it was. *)
Theorem other_startup_failures_escape
        (E : Env) (m : Machine) (once : bool) (cycles : nat) :
  (forall data,
      config_file m = Some (Ok data) ->
      cd_agent_name data = Some (VStr (lit "3mrAgent")) ->
      cd_submolt data = None ->
      main_process E m once cycles
      = {| outcome := UncaughtAtStartup (KeyError (lit "submolt"));
           state_file_after := state_file m; events := [] |})
  /\ (forall e,
         config_file m = Some (Raise e) ->
         main_process E m once cycles
         = {| outcome := UncaughtAtStartup (Other e);
              state_file_after := state_file m; events := [] |}).
Proof.
  unfold main_process, configure, load_config. split.
  - intros data Hfile Hname Hboard. now rewrite Hfile, Hname, Hboard.
  - intros e Hfile. now rewrite Hfile.
Qed.

Lemma other_startup_failures_escape_witness :
  outcome (main_process Ex.env_down machine_no_submolt true 0)
  = UncaughtAtStartup (KeyError (lit "submolt")).
Proof.
  now rewrite (proj1 (other_startup_failures_escape Ex.env_down machine_no_submolt true 0)
                 (config_named (VStr (lit "3mrAgent")) None) eq_refl eq_refl eq_refl).
Defined.

Section Whole.

Variable E : Env.
Variable cfg : AgentConfig.


Lemma main_dry_no_post (once : bool) (cycles : nat) (w : World) :
  dry_run cfg = true -> no_post_between w (snd (main E cfg once cycles w)).
Proof.
  intros Hdry. unfold main.
  rewrite (bind_ok _ _ _ _ _ (print_spec _ w)).
  eapply no_post_between_trans;
    [apply (no_post_with_network w [EvPrint (starting_line cfg)] 0); repeat constructor |].
  destruct once.
  - pose proof (run_once_dry_no_post E cfg
                  (with_network w [EvPrint (starting_line cfg)] 0) Hdry) as Hrun.
    destruct (run_once E cfg (with_network w [EvPrint (starting_line cfg)] 0))
      as [[[] | e] w1] eqn:Hone; cbn [snd] in Hrun.
    + now rewrite (bind_ok _ _ _ _ _ Hone).
    + now rewrite (bind_raise _ _ _ _ _ Hone).
  - apply main_loop_no_post. intros w0. now apply run_once_dry_no_post.
Qed.


End Whole.

Lemma configure_inl (m : Machine) (final : Final) :
  configure m = inl final ->
  state_file_after final = state_file m
  /\ Forall (fun ev => is_request ev = false) (events final).
Proof.
  unfold configure.
  destruct (load_config (environ m) (config_path m) (config_file m))
    as [[msg | key | e] | config].
  1-3: intros H; injection H as <-; split; [reflexivity | repeat constructor].
  destruct (ensure_env (environ m)) as [[msg | key | e] | [api_key printed]];
    try discriminate;
    intros H; injection H as <-; split; try reflexivity; repeat constructor.
Qed.



(** X23. [DRY_RUN] in the environment is enough to keep the process from
    commenting: when it is set to "1", "true", "yes" or "on" (in any letter
    case), no POST is sent from start to end, in either mode, whatever
    [config.json] says about [dry_run] and whatever the feed holds. *)
Theorem dry_run_environment_never_posts
        (E : Env) (m : Machine) (once : bool) (cycles : nat) (val : str) :
  environ m (lit "DRY_RUN") = Some val ->
  mem (lower val) [lit "1"; lit "true"; lit "yes"; lit "on"] = true ->
  Forall (fun ev => is_post_request ev = false) (events (main_process E m once cycles)).
Proof.
  intros Hset Hon. unfold main_process.
  destruct (configure m) as [final | [config printed]] eqn:Hconf.
  - destruct (configure_inl _ _ Hconf) as [_ Hevents].
    eapply Forall_impl; [| exact Hevents].
    intros [r | d | line]; cbn; congruence.
  - destruct (configure_inr _ _ _ Hconf) as [Hload Hprinted].
    destruct (load_config_inr _ _ _ _ Hload) as (data & _ & _ & _ & Hdry & _).
    assert (Hdry' : dry_run config = true).
    { rewrite Hdry. unfold _env_bool. now rewrite Hset. }
    destruct (main_dry_no_post E config once cycles (boot m printed) Hdry')
      as (evs & Htrace & Hevs).
    destruct (main E config once cycles (boot m printed)) as [result w].
    cbn [snd] in Htrace. cbn [events]. rewrite Htrace.
    apply Forall_app. split; [exact Hprinted | exact Hevs].
Qed.

Lemma dry_run_environment_never_posts_witness :
  Forall (fun ev => is_post_request ev = false)
    (events (main_process (Ex.env_up [Ex.post_sky; Ex.post_third])
               (first_run [(lit "DRY_RUN", lit "TRUE")]
                  {| cd_agent_name := Some (VStr (lit "3mrAgent"));
                     cd_submolt := Some (lit "general");
                     cd_api_base := None; cd_dry_run := Some false;
                     cd_max_comments_per_hour := None; cd_min_loop_seconds := None;
                     cd_max_loop_seconds := None; cd_fetch_limit := None;
                     cd_request_timeout_seconds := None; cd_max_retries := None |})
               false 2)).
Proof.
  apply (dry_run_environment_never_posts _ _ false 2 (lit "TRUE")); reflexivity.
Defined.

(* ================================================================== *)
(** * The records of a reply, and the feed *)

(** X24. A cycle writes the records of a reply all together or not at all:
    the state file it leaves is either the pruned one, or the pruned one in
    which one post that yields a candidate is marked replied, the candidate's
    fingerprint is recorded and one timestamp is appended; and the latter
    happens only when the cycle started below the rate limit and ends
    normally. *)
Theorem cycle_records_all_or_nothing (E : Env) (cfg : AgentConfig) (w : World) :
  let pruned := file (after_count E w) in
  let d' := file (snd (run_once E cfg w)) in
  d' = pruned
  \/ (fst (MemoryStore.comment_count_last_hour (clock E (clock_reads w)) (file w))
      < max_comments_per_hour cfg
      /\ fst (run_once E cfg w) = Ok tt
      /\ exists p reply t,
          yields pruned p reply
          /\ d' = MemoryStore.record_comment_now t
                    (MemoryStore.add_advice (short_fingerprint reply)
                       (MemoryStore.mark_replied (post_id_of p) pruned))
          /\ MemoryStore.has_replied (post_id_of p) d' = true
          /\ MemoryStore.has_advice (short_fingerprint reply) d' = true
          /\ comment_timestamps d' = comment_timestamps pruned ++ [t]).
Proof.
  cbv zeta.
  destruct (run_once_file E cfg w) as [Hsame | (Hbelow & Hok & p & reply & t & Hy & Hfile)].
  - now left.
  - right. split; [exact Hbelow | split; [exact Hok |]].
    exists p, reply, t. rewrite Hfile.
    split; [exact Hy | split; [reflexivity | split; [| split]]].
    + apply has_replied_after_mark.
    + apply has_advice_after_add.
    + reflexivity.
Qed.

